(** * H3RNNSeqClassifier: a shallow embedding of the classifier wrapper

    The wrapper of [h3mlcore/models/H3RNNSeqClassifier.py] drives three
    collaborators: the symbol API of the numeric framework, its bucketing
    module, and the bucketing sequence iterator.  The wrapper's own control
    flow is embedded here as functions in a state-and-exception monad; the
    collaborators are represented by recording doubles (what was called, with
    which arguments, in which order) and by oracles for the values they hand
    back (network outputs, the outcome of reading a file). *)

From Stdlib Require Import QArith.
From stdpp Require Import base numbers list list_numbers strings pretty.

Close Scope Q_scope.

Local Open Scope string_scope.
Local Open Scope list_scope.
Local Open Scope Z_scope.

(** ** Exceptions and the method monad *)

Inductive ExnKind :=
  | TypeError | AttributeError | IndexError | ValueError | IOError
  | AssertionError | MXNetError | OtherError.

Record Exn := Raise { kind : ExnKind; what : string }.

Global Instance ExnKind_eq_dec : EqDecision ExnKind.
Proof. solve_decision. Defined.

(** A method body run on a state [St]: the state it leaves behind (Python
    keeps every mutation made before a [raise]) and either the exception
    that escaped or the value returned. *)
Definition Py (St A : Type) : Type := St -> St * (Exn + A).

Definition ret {St A} (a : A) : Py St A := fun s => (s, inr a).

Definition raise {St A} (k : ExnKind) (msg : string) : Py St A :=
  fun s => (s, inl (Raise k msg)).

Definition bind {St A B} (c : Py St A) (k : A -> Py St B) : Py St B :=
  fun s => match c s with
           | (s', inr a) => k a s'
           | (s', inl e) => (s', inl e)
           end.

Definition get {St} : Py St St := fun s => (s, inr s).
Definition modify {St} (f : St -> St) : Py St unit := fun s => (f s, inr tt).

(** [try c except kinds: h]: the handler runs on the state at the raise. *)
Definition try_except {St A} (c : Py St A) (kinds : list ExnKind)
    (h : Py St A) : Py St A :=
  fun s => match c s with
           | (s', inl e) => if bool_decide (kind e ∈ kinds) then h s' else (s', inl e)
           | r => r
           end.

(** Lift an effect-free computation that may raise. *)
Definition lift {St A} (r : Exn + A) : Py St A := fun s => (s, r).

Declare Scope py_scope.
Delimit Scope py_scope with py.
Notation "x <~ c ; k" := (bind c (fun x => k))
  (at level 100, c at next level, right associativity) : py_scope.
Notation "c ;; k" := (bind c (fun _ => k))
  (at level 100, right associativity) : py_scope.

(** The same sequencing for code that has no state to thread. *)
Definition bind_sum {A B} (r : Exn + A) (k : A -> Exn + B) : Exn + B :=
  match r with
  | inl e => inl e
  | inr a => k a
  end.

Declare Scope sum_scope.
Delimit Scope sum_scope with sum.
Notation "x <~ c ; k" := (bind_sum c (fun x => k))
  (at level 100, c at next level, right associativity) : sum_scope.

(** A loop that rebinds one variable and may raise at any turn. *)
Fixpoint foldl_sum {A B} (f : A -> B -> Exn + A) (a : A) (l : list B) : Exn + A :=
  match l with
  | [] => inr a
  | x :: l' => bind_sum (f a x) (fun a' => foldl_sum f a' l')
  end.

(** [for x in l: body x] *)
Fixpoint for_each {St A} (l : list A) (body : A -> Py St unit) : Py St unit :=
  match l with
  | [] => ret tt
  | x :: l' => bind (body x) (fun _ => for_each l' body)
  end.

(** Python 2 [range(n)]: the list [0, 1, ..., n-1], empty when [n <= 0]. *)
Definition range (n : Z) : list Z := seqZ 0 n.

(** [str] of an integer. *)
Definition str (z : Z) : string := pretty z.

(** ** Data model *)

Inductive Metric := Accuracy | CrossEntropy | TopKAccuracy (top_k : Z).

Definition metric_name (m : Metric) : string :=
  match m with
  | Accuracy => "accuracy"
  | CrossEntropy => "cross-entropy"
  | TopKAccuracy k => "top_k_accuracy_" +:+ str k
  end.

Inductive Device := gpu (i : Z) | cpu (i : Z).

(** [self.ctx] is a list of devices on the first two branches and a single
    device on the default branch. *)
Inductive Context := CtxList (l : list Device) | CtxOne (d : Device).

Inductive Level := DEBUG | INFO | WARNING | ERROR.

Global Instance Level_eq_dec : EqDecision Level.
Proof. solve_decision. Defined.

Record LogRecord := Log { level : Level; message : string }.

(** The process-wide logging state as this instance sees it: records sent
    through [self.logger] (the logger named 'default') and records sent
    straight to the root logger, oldest first. *)
Record Logging := {
  basic_config : option Level;
  root_records : list LogRecord;
  default_records : list LogRecord
}.

Definition Shapes := list (string * list Z).

(** One batch: rows of (padded) token indices, the label arrays, the bucket. *)
Record DataBatch := {
  data : list (list Z);
  label : list (list Z);
  bucket_key : Z
}.

(** *** The symbol graph *)

Inductive Symbol :=
  | SymVariable (name : string)
  | Embedding (data : Symbol) (input_dim : option Z) (output_dim : Z) (name : string)
  | SliceT (data : Symbol) (t : Z)
  | BeginState (prefix : string)
  | LSTMStep (prefix : string) (num_hidden : Z) (x : Symbol) (state : Symbol)
  | FullyConnected (data : Symbol) (num_hidden : Z) (name : string)
  | SoftmaxOutput (data label : Symbol) (name : string).

Record LSTMCell := { prefix : string; cell_hidden : Z }.

(** [cell.unroll(length, inputs, layout='NTC')] with [merge_outputs] left at
    its default: a single tensor is split along the time axis into [length]
    slices, a list is taken as it is; starting from the cell's begin state,
    the cell is applied step by step, each step reading its input and the
    state left by the step before, and the list of the step outputs is
    returned. *)
Definition normalize_sequence (length : Z) (inputs : Symbol + list Symbol)
    : list Symbol :=
  match inputs with
  | inl s => SliceT s <$> range length
  | inr l => l
  end.

Fixpoint unroll_steps (cell : LSTMCell) (inputs : list Symbol)
    (state : Symbol) : list Symbol :=
  match inputs with
  | [] => []
  | x :: rest =>
      let h := LSTMStep (prefix cell) (cell_hidden cell) x state in
      h :: unroll_steps cell rest h
  end.

Definition unroll_outputs (cell : LSTMCell) (length : Z)
    (inputs : Symbol + list Symbol) : list Symbol :=
  unroll_steps cell (normalize_sequence length inputs) (BeginState (prefix cell)).

(** The operators of the framework check their sizes when a symbol is
    created: a size has to be given and to be at least 1. Splitting the input
    into [length] slices needs [length >= 1]; each step of a cell creates
    fully-connected layers of [4 * num_hidden] units. *)
Definition invalid_parameter (op : string) : Exn :=
  Raise MXNetError ("Invalid Parameter format in operator " +:+ op).

Definition mx_Embedding (data : Symbol) (input_dim : option Z) (output_dim : Z)
    (name : string) : Exn + Symbol :=
  match input_dim with
  | Some d =>
      if (1 <=? d) && (1 <=? output_dim)
      then inr (Embedding data input_dim output_dim name)
      else inl (invalid_parameter "Embedding")
  | None => inl (invalid_parameter "Embedding")
  end.

Definition mx_FullyConnected (data : Symbol) (num_hidden : Z) (name : string)
    : Exn + Symbol :=
  if 1 <=? num_hidden then inr (FullyConnected data num_hidden name)
  else inl (invalid_parameter "FullyConnected").

Definition unroll (cell : LSTMCell) (length : Z) (inputs : Symbol + list Symbol)
    : Exn + list Symbol :=
  if (1 <=? length) && (1 <=? cell_hidden cell)
  then inr (unroll_outputs cell length inputs)
  else inl (invalid_parameter "unroll").

(** [l[-1]] on a Python list. *)
Definition index_last {A} (l : list A) : Exn + A :=
  match last l with
  | Some x => inr x
  | None => inl (Raise IndexError "list index out of range")
  end.

(** *** The bucketing module (recording double) *)

Inductive ParamState := Uninitialized | Fresh | Loaded (file : string).

Inductive Call :=
  | Forward (batch : DataBatch) (is_train : option bool)
  | Backward
  | Update
  | Score (eval_batches : list DataBatch) (m : Metric)
  | SaveParams (path : string).

Definition Graph : Type := Symbol * list string * list string.

Record BucketingModule := {
  sym_gen : Z -> Exn + Graph;
  default_bucket_key : Z;
  context : Context;
  binded : option (Shapes * Shapes);
  params : ParamState;
  optimizer_of : option (string * Q);
  calls : list Call
}.

(** *** The bucketing sequence iterator *)

(** Modelled from the spec: the class [BucketSeqLabelIter] of [h3mlcore/io],
    which is not part of the file embedded here. The spec gives its
    contract: it exposes [reset()], sequential iteration yielding batches,
    [default_bucket_key] and the [provide_data] / [provide_label] shape
    descriptors. [pending] are the batches still to be yielded before
    iteration stops; [schedule k] are the batches the [k]-th reset lines up
    (an iterator is free to reshuffle at every reset). *)
Record BucketSeqLabelIter := {
  it_default_bucket_key : Z;
  provide_data : Shapes;
  provide_label : Shapes;
  pending : list DataBatch;
  schedule : nat -> list DataBatch;
  resets : nat
}.

Definition reset (it : BucketSeqLabelIter) : BucketSeqLabelIter :=
  {| it_default_bucket_key := it_default_bucket_key it;
     provide_data := provide_data it;
     provide_label := provide_label it;
     pending := schedule it (resets it);
     schedule := schedule it;
     resets := S (resets it) |}.

(** Running an iterator to exhaustion, as a [for] loop does. *)
Definition exhausted (it : BucketSeqLabelIter) : BucketSeqLabelIter :=
  {| it_default_bucket_key := it_default_bucket_key it;
     provide_data := provide_data it;
     provide_label := provide_label it;
     pending := [];
     schedule := schedule it;
     resets := resets it |}.

(** The values a caller may pass where an iterator is expected. *)
Inductive PyValue :=
  | PyNone
  | PyInt (z : Z)
  | PyStr (s : string)
  | PyIntList (l : list Z)
  | PyNDArrayIter (batches : list DataBatch)
  | PyBucketSeqLabelIter (it : BucketSeqLabelIter).

Definition isinstance_BucketSeqLabelIter (v : PyValue) : option BucketSeqLabelIter :=
  match v with
  | PyBucketSeqLabelIter it => Some it
  | _ => None
  end.

(** *** The wrapper instance *)

Record H3RNNSeqClassifier := {
  logging : Logging;
  num_hidden : Z;
  num_embed : Z;
  input_dim : option Z;
  lstm_layer : Z;
  num_classes : Z;
  params_file : string;
  learning_rate : Q;
  optimizer : string;
  metric : option Metric;
  ctx : Context;
  model : option BucketingModule
}.

(** What the world outside the process answers. [logging_setup path config]
    is the outcome of the statements of the constructor's [try] block (create
    the log directory [path], open and parse the configuration, install it);
    [isfile] is [os.path.isfile]; [load_outcome file] is the outcome of the
    module's [load_params] on [file]. [None] stands for success. *)
Record Env := {
  logging_setup : string -> string -> option Exn;
  isfile : string -> bool;
  load_outcome : string -> option Exn
}.

(** Python truth value testing, as used by [if x:]. *)
Class Truthy (A : Type) := truth : A -> bool.

Global Instance Truthy_int : Truthy Z := fun z => negb (z =? 0).
Global Instance Truthy_list {A} : Truthy (list A) :=
  fun l => match l with [] => false | _ :: _ => true end.
(** An iterator object defines no length and no truth method. *)
Global Instance Truthy_iter : Truthy BucketSeqLabelIter := fun _ => true.
(** [None] is false; anything else answers for itself. *)
Global Instance Truthy_optional {A} `{Truthy A} : Truthy (option A) :=
  fun o => match o with None => false | Some a => truth a end.

(** ** The constructor *)

Record InitArgs := {
  arg_num_hidden : Z;
  arg_num_embed : Z;
  arg_input_dim : option Z;
  arg_lstm_layer : Z;
  arg_num_classes : Z;
  arg_params_file : string;
  arg_learning_rate : Q;
  arg_optimizer : string;
  arg_metric : string;
  arg_use_gpus : list Z;
  arg_use_cpus : list Z;
  arg_logging_root_dir : string;
  arg_logging_config : string;
  arg_verbose : bool
}.

Definition default_args : InitArgs := {|
  arg_num_hidden := 256;
  arg_num_embed := 128;
  arg_input_dim := None;
  arg_lstm_layer := 1;
  arg_num_classes := 2;
  arg_params_file := "";
  arg_learning_rate := (1 # 10)%Q;
  arg_optimizer := "sgd";
  arg_metric := "acc";
  arg_use_gpus := [];
  arg_use_cpus := [];
  arg_logging_root_dir := "logs/";
  arg_logging_config := "configs/logging.yaml";
  arg_verbose := false
|}.

Definition class_name : string := "H3RNNSeqClassifier".

(** Lines 45-59: the [try] block either installs the configuration, or
    raises [IOError], which the handler turns into basic logging at [INFO]
    plus a warning on the root logger, or raises something else, which
    escapes the constructor once [finally] has run. *)
Definition setup_logging (env : Env) (root_dir config : string) : Exn + Logging :=
  let logging_path := root_dir +:+ class_name +:+ "/" in
  match logging_setup env logging_path config with
  | None =>
      inr {| basic_config := None; root_records := []; default_records := [] |}
  | Some e =>
      if bool_decide (kind e = IOError) then
        inr {| basic_config := Some INFO;
               root_records :=
                 [Log WARNING ("logging config file: " +:+ config +:+ " does not exist.")];
               default_records := [] |}
      else inl e
  end.

Definition __init__ (env : Env) (a : InitArgs) : Exn + H3RNNSeqClassifier :=
  match setup_logging env (arg_logging_root_dir a) (arg_logging_config a) with
  | inl e => inl e
  | inr logger =>
      let metric :=
        if String.eqb (arg_metric a) "acc" then Some Accuracy
        else if String.eqb (arg_metric a) "cross-entropy" then Some CrossEntropy
        else if String.eqb (arg_metric a) "topk" then Some (TopKAccuracy 3)
        else None in
      let ctx :=
        if truth (arg_use_gpus a) then CtxList (gpu <$> arg_use_gpus a)
        else if truth (arg_use_cpus a) then CtxList (cpu <$> arg_use_cpus a)
        else CtxOne (cpu 0) in
      inr {| logging := logger;
             num_hidden := arg_num_hidden a;
             num_embed := arg_num_embed a;
             input_dim := arg_input_dim a;
             lstm_layer := arg_lstm_layer a;
             num_classes := arg_num_classes a;
             params_file := arg_params_file a;
             learning_rate := arg_learning_rate a;
             optimizer := arg_optimizer a;
             metric := metric;
             ctx := ctx;
             model := None |}
  end.

(** ** The symbol generator *)

Definition lstm_prefix (i : Z) : string := "lstm_" +:+ str i +:+ "_".

Definition _sym_gen (self : H3RNNSeqClassifier) (seq_len : Z) : Exn + Graph :=
  let data := SymVariable "data" in
  let label := SymVariable "softmax_label" in
  (embeds <~ mx_Embedding data (input_dim self) (num_embed self) "embed";
   let lstm_1 := {| prefix := "lstm_1_"; cell_hidden := num_hidden self |} in
   outputs <~ unroll lstm_1 seq_len (inl embeds);
   outputs <~ foldl_sum
                (fun outputs i =>
                   let new_lstm := {| prefix := lstm_prefix (i + 2);
                                      cell_hidden := num_hidden self |} in
                   unroll new_lstm seq_len (inr outputs))
                outputs (range (lstm_layer self - 1));
   last_output <~ index_last outputs;
   pred <~ mx_FullyConnected last_output (num_classes self) "logits";
   let pred := SoftmaxOutput pred label "softmax" in
   inr (pred, ["data"], ["softmax_label"]))%sum.

(** The recurrent cells stacked between a node and the raw input: following
    the data edge downwards, the prefix of every cell passed, topmost first. *)
Fixpoint stacked_cells (s : Symbol) : list string :=
  match s with
  | SymVariable _ | BeginState _ => []
  | Embedding d _ _ _ | SliceT d _ | FullyConnected d _ _ | SoftmaxOutput d _ _ =>
      stacked_cells d
  | LSTMStep p _ x _ => p :: stacked_cells x
  end.

(** The cell of every recurrent step anywhere in the graph, along all edges. *)
Fixpoint step_cells (s : Symbol) : list string :=
  match s with
  | SymVariable _ | BeginState _ => []
  | Embedding d _ _ _ | SliceT d _ | FullyConnected d _ _ => step_cells d
  | SoftmaxOutput d l _ => step_cells d ++ step_cells l
  | LSTMStep p _ x st => p :: step_cells x ++ step_cells st
  end.

(** The distinct recurrent cells of a graph. *)
Definition lstm_cells (s : Symbol) : list string := remove_dups (step_cells s).

(** ** The bucketing module double: what each call leaves behind *)

Definition fresh_module (gen : Z -> Exn + Graph) (key : Z) (c : Context)
    : BucketingModule :=
  {| sym_gen := gen; default_bucket_key := key; context := c;
     binded := None; params := Uninitialized; optimizer_of := None; calls := [] |}.

(** [mx.module.BucketingModule(sym_gen, default_bucket_key, context)]: the
    constructor generates the symbol of the default bucket at once, so what
    the generator raises there is raised by the constructor. *)
Definition new_module (gen : Z -> Exn + Graph) (key : Z) (c : Context)
    : Exn + BucketingModule :=
  match gen key with
  | inl e => inl e
  | inr _ => inr (fresh_module gen key c)
  end.

Definition set_binded (b : option (Shapes * Shapes)) (m : BucketingModule)
    : BucketingModule :=
  {| sym_gen := sym_gen m; default_bucket_key := default_bucket_key m;
     context := context m; binded := b; params := params m;
     optimizer_of := optimizer_of m; calls := calls m |}.

Definition set_params (p : ParamState) (m : BucketingModule) : BucketingModule :=
  {| sym_gen := sym_gen m; default_bucket_key := default_bucket_key m;
     context := context m; binded := binded m; params := p;
     optimizer_of := optimizer_of m; calls := calls m |}.

Definition set_optimizer (o : option (string * Q)) (m : BucketingModule)
    : BucketingModule :=
  {| sym_gen := sym_gen m; default_bucket_key := default_bucket_key m;
     context := context m; binded := binded m; params := params m;
     optimizer_of := o; calls := calls m |}.

Definition record_call (c : Call) (m : BucketingModule) : BucketingModule :=
  {| sym_gen := sym_gen m; default_bucket_key := default_bucket_key m;
     context := context m; binded := binded m; params := params m;
     optimizer_of := optimizer_of m; calls := calls m ++ [c] |}.

Definition bind_module (data_shapes label_shapes : Shapes) :=
  set_binded (Some (data_shapes, label_shapes)).

(** [init_params] with [force_init] left off keeps parameters that are
    already there. *)
Definition init_params (m : BucketingModule) : BucketingModule :=
  match params m with
  | Uninitialized => set_params Fresh m
  | _ => m
  end.


(** ** Accessors on the instance *)

Definition set_model (m : option BucketingModule) (self : H3RNNSeqClassifier)
    : H3RNNSeqClassifier :=
  {| logging := logging self; num_hidden := num_hidden self;
     num_embed := num_embed self; input_dim := input_dim self;
     lstm_layer := lstm_layer self; num_classes := num_classes self;
     params_file := params_file self; learning_rate := learning_rate self;
     optimizer := optimizer self; metric := metric self; ctx := ctx self;
     model := m |}.

Definition emit (r : LogRecord) (self : H3RNNSeqClassifier) : H3RNNSeqClassifier :=
  {| logging := {| basic_config := basic_config (logging self);
                   root_records := root_records (logging self);
                   default_records := default_records (logging self) ++ [r] |};
     num_hidden := num_hidden self;
     num_embed := num_embed self; input_dim := input_dim self;
     lstm_layer := lstm_layer self; num_classes := num_classes self;
     params_file := params_file self; learning_rate := learning_rate self;
     optimizer := optimizer self; metric := metric self; ctx := ctx self;
     model := model self |}.

Definition Method (A : Type) : Type := Py H3RNNSeqClassifier A.

(** [self.logger.<level>(msg)] *)
Definition logger (lvl : Level) (msg : string) : Method unit :=
  modify (emit (Log lvl msg)).

Definition no_attribute (attr : string) : Exn :=
  Raise AttributeError ("'NoneType' object has no attribute '" +:+ attr +:+ "'").

(** [self.model.<attr>(...)]: an attribute error while [self.model] is still
    [None], the effect of the call on the module otherwise. *)
Definition model_call (attr : string) (f : BucketingModule -> BucketingModule)
    : Method unit :=
  fun self =>
    match model self with
    | None => (self, inl (no_attribute attr))
    | Some m => (set_model (Some (f m)) self, inr tt)
    end.

(** [self.model.load_params(fname)]: reading fails before any parameter is
    set, so a failure leaves the module as it was. *)
Definition load_params (env : Env) (fname : string) : Method unit :=
  fun self =>
    match model self with
    | None => (self, inl (no_attribute "load_params"))
    | Some m =>
        match load_outcome env fname with
        | None => (set_model (Some (set_params (Loaded fname) m)) self, inr tt)
        | Some e => (self, inl e)
        end
    end.

(** [self.model.init_optimizer(...)]: the module asserts that it is bound and
    that its parameters are initialized before it installs the optimizer. *)
Definition init_optimizer (name : string) (lr : Q) : Method unit :=
  fun self =>
    match model self with
    | None => (self, inl (no_attribute "init_optimizer"))
    | Some m =>
        match binded m, params m with
        | Some _, Fresh | Some _, Loaded _ =>
            (set_model (Some (set_optimizer (Some (name, lr)) m)) self, inr tt)
        | _, _ => (self, inl (Raise AssertionError "init_optimizer"))
        end
    end.

(** ** initialize *)

Definition initialize (env : Env) (data_iter : PyValue) : Method unit :=
  match isinstance_BucketSeqLabelIter data_iter with
  | None =>
      let err_msg :=
        "Data iterator for this model should be of type BucketSeqLabelIter." in
      raise TypeError err_msg
      (* the call of [self.logger.error] and the [return] that follow the
         [raise] are never reached *)
  | Some it =>
      (self <~ get;
       m <~ lift (new_module (_sym_gen self) (it_default_bucket_key it) (ctx self));
       modify (set_model (Some m));;
       model_call "bind" (bind_module (provide_data it) (provide_label it));;
       (if isfile env (params_file self) then
          try_except
            (load_params env (params_file self);;
             logger INFO ("LSTM model parameters loaded from file: "
                          +:+ params_file self +:+ "."))
            [IOError; ValueError]
            (logger WARNING
               "Parameters file does not exist or not valid! please check the file.")
        else
          (model_call "init_params" init_params;;
           logger INFO "LSTM Model initialized."));;
       init_optimizer (optimizer self) (learning_rate self))%py
  end.

(** ** step *)

(** The diagnostic metric of a step is a fresh cross-entropy over the outputs
    of the forward pass; its value goes into the debug record only, and the
    formatted number is left as [%f] here. Updating the metric indexes the
    outputs by the labels of the batch and raises when they do not fit (a
    label outside the classes, shapes that differ): [metric_update batch] is
    what [metric.update(data_batch.label, outputs)] raises on the batch, if
    anything. *)
Definition step (metric_update : DataBatch -> option Exn)
    (data_batch : DataBatch) : Method unit :=
  (model_call "forward" (record_call (Forward data_batch None));;
   model_call "get_outputs" id;;
   lift (match metric_update data_batch with
         | Some e => inl e
         | None => inr tt
         end);;
   logger DEBUG ("train step " +:+ metric_name CrossEntropy +:+ ": %f");;
   model_call "backward" (record_call Backward);;
   model_call "update" (record_call Update))%py.

(** ** train_epochs *)

(** The objects a call of [train_epochs] works on: the instance and the two
    iterators passed in, all mutated in place. The evaluation iterator may
    be the very object passed as training iterator ([SameIterator]), and
    then every reset and every batch taken is shared. *)
Inductive EvalData :=
  | SameIterator
  | OtherIterator (it : BucketSeqLabelIter).

Global Instance Truthy_eval : Truthy EvalData := fun _ => true.

Record TrainState := {
  self_of : H3RNNSeqClassifier;
  train_data : BucketSeqLabelIter;
  eval_data : option EvalData
}.

Definition on_self {A} (c : Method A) : Py TrainState A :=
  fun st =>
    match c (self_of st) with
    | (self', r) =>
        ({| self_of := self'; train_data := train_data st;
            eval_data := eval_data st |}, r)
    end.

Definition set_train_data (it : BucketSeqLabelIter) (st : TrainState) : TrainState :=
  {| self_of := self_of st; train_data := it; eval_data := eval_data st |}.

Definition set_eval_data (it : option EvalData) (st : TrainState)
    : TrainState :=
  {| self_of := self_of st; train_data := train_data st; eval_data := it |}.

Definition set_pending (bs : list DataBatch) (it : BucketSeqLabelIter)
    : BucketSeqLabelIter :=
  {| it_default_bucket_key := it_default_bucket_key it;
     provide_data := provide_data it;
     provide_label := provide_label it;
     pending := bs;
     schedule := schedule it;
     resets := resets it |}.

(** [for batch in train_data: body]: each turn takes the next pending batch
    off the iterator, then runs the body on it. *)
Fixpoint for_batches (bs : list DataBatch) (body : DataBatch -> Py TrainState unit)
    : Py TrainState unit :=
  match bs with
  | [] => ret tt
  | b :: rest =>
      (modify (fun st => set_train_data (set_pending rest (train_data st)) st);;
       body b;;
       for_batches rest body)%py
  end.

(** The iterator [eval_data] names, and putting a new state of it back. *)
Definition eval_iterator (st : TrainState) : option BucketSeqLabelIter :=
  match eval_data st with
  | Some SameIterator => Some (train_data st)
  | Some (OtherIterator ev) => Some ev
  | None => None
  end.

Definition set_eval_iterator (ev : BucketSeqLabelIter) (st : TrainState)
    : TrainState :=
  match eval_data st with
  | Some SameIterator => set_train_data ev st
  | Some (OtherIterator _) => set_eval_data (Some (OtherIterator ev)) st
  | None => st
  end.

(** [eval_data.reset()] *)
Definition reset_eval : Py TrainState unit :=
  fun st =>
    match eval_iterator st with
    | Some ev => (set_eval_iterator (reset ev) st, inr tt)
    | None => (st, inl (no_attribute "reset"))
    end.

(** [self.model.score(eval_data, self.metric)]: with its default [reset=True]
    the scoring routine resets the iterator itself and runs it to the end. *)
Definition score : Py TrainState unit :=
  fun st =>
    match model (self_of st) with
    | None => (st, inl (no_attribute "score"))
    | Some m =>
        match metric (self_of st) with
        | None =>
            (st, inl (Raise AttributeError
                        "'H3RNNSeqClassifier' object has no attribute 'metric'"))
        | Some mt =>
            match eval_iterator st with
            | None => (st, inl (no_attribute "reset"))
            | Some ev =>
                let ev' := reset ev in
                let st' := set_eval_iterator (exhausted ev') st in
                ({| self_of :=
                      set_model (Some (record_call (Score (pending ev') mt) m))
                                (self_of st);
                    train_data := train_data st';
                    eval_data := eval_data st' |}, inr tt)
            end
        end
    end.

Definition metric_name_of (o : option Metric) : string :=
  match o with Some m => metric_name m | None => "" end.

(** Lines 187-194: the body of the loop over the epochs. *)
Definition epoch (metric_update : DataBatch -> option Exn) (e : Z)
    : Py TrainState unit :=
  (modify (fun st => set_train_data (reset (train_data st)) st);;
   st <~ get;
   for_batches (pending (train_data st))
     (fun batch => on_self (step metric_update batch));;
   st <~ get;
   if truth (eval_data st) then
     (reset_eval;;
      score;;
      st <~ get;
      on_self (logger INFO ("Training epoch " +:+ str (e + 1) +:+ " -- Evaluate "
                            +:+ metric_name_of (metric (self_of st)) +:+ ": %f")))
   else ret tt)%py.

Definition train_epochs (metric_update : DataBatch -> option Exn) (num_epochs : Z)
    : Py TrainState unit :=
  for_each (range num_epochs) (epoch metric_update).

(** A call [self.train_epochs(train_data, eval_data, num_epochs)]. *)
Definition call_train_epochs (metric_update : DataBatch -> option Exn)
    (self : H3RNNSeqClassifier) (train : BucketSeqLabelIter)
    (eval : option EvalData) (num_epochs : Z) : TrainState * (Exn + unit) :=
  train_epochs metric_update num_epochs
    {| self_of := self; train_data := train; eval_data := eval |}.

(** ** save *)

Definition str_of (epoch : option Z) : string :=
  match epoch with Some z => str z | None => "None" end.

Definition save (path : string) (epoch : option Z) : Method unit :=
  let path := if truth epoch then path +:+ "-" +:+ str_of epoch else path in
  (model_call "save_params" (record_call (SaveParams path));;
   logger INFO ("Network parameters saved in " +:+ path))%py.

(** ** predict *)

Definition len {A} (l : list A) : Z := Z.of_nat (length l).

(** An index into an axis of [n] entries: negative indices count from the
    end, anything outside [-n, n) is an error. *)
Definition norm_index (n : Z) (idx : Z) : Exn + nat :=
  if (0 <=? idx) && (idx <? n) then inr (Z.to_nat idx)
  else if (- n <=? idx) && (idx <? 0) then inr (Z.to_nat (idx + n))
  else inl (Raise IndexError "index is out of bounds for axis 0").

(** [a[idx] = v] *)
Definition setitem {A} (a : list A) (idx : Z) (v : A) : Exn + list A :=
  match norm_index (len a) idx with
  | inl e => inl e
  | inr i => inr (<[i := v]> a)
  end.

(** [np.zeros(shape=(n,), dtype=int)] and [np.zeros(shape=(n, m))]. *)
Definition np_zeros {A} (zero : A) (n : Z) : Exn + list A :=
  if n <? 0 then inl (Raise ValueError "negative dimensions are not allowed")
  else inr (replicate (Z.to_nat n) zero).

Definition np_zeros2 {A} (zero : A) (n m : Z) : Exn + list (list A) :=
  match np_zeros zero m with
  | inl e => inl e
  | inr row => np_zeros row n
  end.

(** Writing the vector [v] into a row of [m] entries: a vector of that length
    is taken as it is, a vector of one entry is repeated, others do not fit. *)
Definition broadcast_row {A} (m : Z) (v : list A) : Exn + list A :=
  if len v =? m then inr v
  else match v with
       | [x] => inr (replicate (Z.to_nat m) x)
       | _ => inl (Raise ValueError "could not broadcast input array")
       end.

(** [l[0]] *)
Definition index_first {A} (l : list A) : Exn + A :=
  match l with
  | x :: _ => inr x
  | [] => inl (Raise IndexError "list index out of range")
  end.

(** A [for] loop that carries local variables from one turn to the next. *)
Fixpoint for_fold {St A B} (l : list A) (acc : B) (body : B -> A -> Py St B)
    : Py St B :=
  match l with
  | [] => ret acc
  | x :: l' => bind (body acc x) (fun acc' => for_fold l' acc' body)
  end.

Section Predict.
(** Scores are numbers of some ordered type; [gtb x y] is [x > y]. *)
Context {R : Type} (zero : R) (gtb : R -> R -> bool).

(** [self.model.get_outputs()[0].asnumpy()] after a forward pass on a batch
    in inference mode: one row of scores per row of the batch. *)
Variable net : DataBatch -> list (list R).

(** [BucketSeqLabelIter(data, labels, batch_size=...)]: the iterator built
    over the samples and their labels, ready to be iterated, or the
    exception its constructor raises. *)
Variable new_BucketSeqLabelIter :
  list (list Z) -> list Z -> Z -> Exn + BucketSeqLabelIter.

(** [np.argmax]: the first index at which the largest entry stands. *)
Fixpoint argmax_from (best : R) (best_i i : Z) (l : list R) : Z :=
  match l with
  | [] => best_i
  | x :: l' =>
      if gtb x best then argmax_from x i (i + 1) l'
      else argmax_from best best_i (i + 1) l'
  end.

Definition np_argmax (l : list R) : Exn + Z :=
  match l with
  | [] => inl (Raise ValueError "attempt to get argmax of an empty sequence")
  | x :: l' => inr (argmax_from x 0 1 l')
  end.

Definition Arrays : Type := list Z * list (list R).

(** Lines 217-219: one row of output and the identifier carried with it. *)
Definition scatter (ncols : Z) (arrays : Arrays) (row : list R * Z)
    : Method Arrays :=
  let '(labels, scores) := arrays in
  let '(logits, idx) := row in
  (best <~ lift (np_argmax logits);
   labels <~ lift (setitem labels idx best);
   logits' <~ lift (broadcast_row ncols logits);
   scores <~ lift (setitem scores idx logits');
   ret (labels, scores))%py.

(** Lines 215-219: one batch. *)
Definition predict_batch (ncols : Z) (arrays : Arrays) (batch : DataBatch)
    : Method Arrays :=
  (model_call "forward" (record_call (Forward batch (Some false)));;
   model_call "get_outputs" id;;
   let out := net batch in
   ids <~ lift (index_first (label batch));
   for_fold (zip out ids) arrays (scatter ncols))%py.

Definition predict (test_data : list (list Z)) (batch_size : Z) : Method Arrays :=
  (self <~ get;
   let sample_ids := range (len test_data) in
   labels <~ lift (np_zeros 0 (len test_data));
   scores <~ lift (np_zeros2 zero (len test_data) (num_classes self));
   tt_iter <~ lift (new_BucketSeqLabelIter test_data sample_ids batch_size);
   for_fold (pending tt_iter) (labels, scores) (predict_batch (num_classes self)))%py.

End Predict.

(** ** Observations on a run *)

(** The calls one training step makes on the module. *)
Definition step_calls (b : DataBatch) : list Call :=
  [Forward b None; Backward; Update].

Definition is_score (c : Call) : bool :=
  match c with Score _ _ => true | _ => false end.

(** The batches an iterator yields over [n] epochs, each started by a reset,
    in the order it yields them. *)
Definition epoch_batches (it : BucketSeqLabelIter) (n : nat) : list DataBatch :=
  mjoin (schedule it <$> seq (resets it) n).

(** The paths the module was asked to write parameters to. *)
Definition saved_paths (cs : list Call) : list string :=
  omap (fun c => match c with SaveParams p => Some p | _ => None end) cs.

Definition warnings (self : H3RNNSeqClassifier) : list string :=
  message <$> filter (fun r => level r = WARNING) (default_records (logging self)).

(** The metric identifiers the constructor knows. *)
Definition known_metrics : list string := ["acc"; "cross-entropy"; "topk"].

Definition with_use_cpus (cpus : list Z) (a : InitArgs) : InitArgs := {|
  arg_num_hidden := arg_num_hidden a;
  arg_num_embed := arg_num_embed a;
  arg_input_dim := arg_input_dim a;
  arg_lstm_layer := arg_lstm_layer a;
  arg_num_classes := arg_num_classes a;
  arg_params_file := arg_params_file a;
  arg_learning_rate := arg_learning_rate a;
  arg_optimizer := arg_optimizer a;
  arg_metric := arg_metric a;
  arg_use_gpus := arg_use_gpus a;
  arg_use_cpus := cpus;
  arg_logging_root_dir := arg_logging_root_dir a;
  arg_logging_config := arg_logging_config a;
  arg_verbose := arg_verbose a
|}.

(** The parameters files the module of an instance was asked to write. *)
Definition written_paths (self : H3RNNSeqClassifier) : list string :=
  saved_paths (from_option calls [] (model self)).

(** The module [initialize] has built once it has bound it. *)
Definition bound_module (self : H3RNNSeqClassifier) (it : BucketSeqLabelIter)
    : BucketingModule :=
  bind_module (provide_data it) (provide_label it)
    (fresh_module (_sym_gen self) (it_default_bucket_key it) (ctx self)).

Section PredictObservations.
Context {R : Type} (net : DataBatch -> list (list R)).

(** The identifiers a batch carries, and those of all batches to come. *)
Definition batch_ids (b : DataBatch) : list Z := default [] (head (label b)).

Definition yielded_ids (it : BucketSeqLabelIter) : list Z :=
  mjoin (batch_ids <$> pending it).

(** The output rows of a batch, each with the identifier carried with it,
    and those of all batches to come, in the order [predict] meets them. *)
Definition batch_rows (b : DataBatch) : list (list R * Z) :=
  zip (net b) (batch_ids b).

Definition yielded_rows (it : BucketSeqLabelIter) : list (list R * Z) :=
  mjoin (batch_rows <$> pending it).

(** What [predict] relies on from the iterator built over [n] samples
    labelled [0 .. n-1]: every batch has a label array, and the identifiers
    in it are among those labels. *)
Definition carries_ids (n : Z) (it : BucketSeqLabelIter) : Prop :=
  Forall (fun b => label b <> []) (pending it) /\
  Forall (fun idx => 0 <= idx < n) (yielded_ids it).

(** What [predict] relies on from the module: a row of scores has one entry
    per class. *)
Definition rows_fit (ncols : Z) (it : BucketSeqLabelIter) : Prop :=
  Forall (fun b => Forall (fun row => len row = ncols) (net b)) (pending it).
End PredictObservations.

(** ** Doubles for the examples *)

(** A world with a logging configuration in place and no parameters file. *)
Definition quiet_env : Env :=
  {| logging_setup := fun _ _ => None;
     isfile := fun _ => false;
     load_outcome := fun _ => None |}.

Definition iter_of (bs : list DataBatch) : BucketSeqLabelIter :=
  {| it_default_bucket_key := foldr Z.max 1 (bucket_key <$> bs);
     provide_data := []; provide_label := [];
     pending := bs; schedule := fun _ => bs; resets := 0 |}.

(** An iterator constructor that puts every non-empty sample in a batch of
    its own, last sample first, and leaves the empty samples out. *)
Definition last_first_iter (samples : list (list Z)) (labels : list Z)
    (batch_size : Z) : Exn + BucketSeqLabelIter :=
  inr (iter_of
         ((fun p => {| data := [p.1]; label := [[p.2]]; bucket_key := len p.1 |})
            <$> reverse (filter (fun p => p.1 <> []) (zip samples labels)))).

(** A network with two classes whose scores are integers: the length of the
    row and the constant 1. *)
Definition toy_net (b : DataBatch) : list (list Z) :=
  (fun x => [len x; 1]) <$> data b.

Definition small_self (layers : Z) : H3RNNSeqClassifier :=
  {| logging := {| basic_config := None; root_records := []; default_records := [] |};
     num_hidden := 4; num_embed := 3; input_dim := Some 10;
     lstm_layer := layers; num_classes := 2; params_file := "lstm.params";
     learning_rate := (1 # 10)%Q; optimizer := "sgd"; metric := Some Accuracy;
     ctx := CtxOne (cpu 0); model := None |}.

Definition two_batches : BucketSeqLabelIter :=
  iter_of [ {| data := [[1; 2]; [3; 4]]; label := [[0; 1]]; bucket_key := 2 |};
            {| data := [[5; 6; 7]]; label := [[2]]; bucket_key := 3 |} ].

(** Two batches whose labels are classes of the small instance. *)
Definition class_batches : BucketSeqLabelIter :=
  iter_of [ {| data := [[1; 2]; [3; 4]]; label := [[0; 1]]; bucket_key := 2 |};
            {| data := [[5; 6; 7]]; label := [[1]]; bucket_key := 3 |} ].

(** The metric update of a step over [ncols] classes: an index error when a
    label of the batch is not a class. *)
Definition cross_entropy_update (ncols : Z) (b : DataBatch) : option Exn :=
  if forallb (fun l => (0 <=? l) && (l <? ncols)) (default [] (head (label b)))
  then None
  else Some (Raise IndexError "index out of bounds").

(** The small instance after [initialize] on a clean file system. *)
Definition bound_self (layers : Z) : H3RNNSeqClassifier :=
  (initialize quiet_env (PyBucketSeqLabelIter two_batches) (small_self layers)).1.

(** A world in which the parameters file is there and cannot be read. *)
Definition corrupt_env : Env :=
  {| logging_setup := fun _ _ => None;
     isfile := fun _ => true;
     load_outcome := fun f => Some (Raise IOError ("cannot read " +:+ f)) |}.

(** Constructor arguments for the examples. *)
Definition example_args (metric_id : string) (gpus cpus : list Z) : InitArgs := {|
  arg_num_hidden := 256;
  arg_num_embed := 128;
  arg_input_dim := Some 1000;
  arg_lstm_layer := 1;
  arg_num_classes := 2;
  arg_params_file := "";
  arg_learning_rate := (1 # 10)%Q;
  arg_optimizer := "sgd";
  arg_metric := metric_id;
  arg_use_gpus := gpus;
  arg_use_cpus := cpus;
  arg_logging_root_dir := "logs/";
  arg_logging_config := "configs/logging.yaml";
  arg_verbose := false
|}.

(** A module double whose second class scores the number of tokens of the
    sample against 1 for the first class. *)
Definition peaked_net (b : DataBatch) : list (list Z) :=
  (fun x => [1; len x]) <$> data b.

(** Four samples, the second of them empty: [last_first_iter] brings back
    the samples 3, 2 and 0, in that order, and never sample 1. *)
Definition four_samples : list (list Z) := [[1; 2]; []; [4; 5; 6]; [1]].

(** ** Invariants used in the proofs *)

(** The sizes under which every operator of the graph can be created. *)
Definition valid_sizes (self : H3RNNSeqClassifier) (seq_len : Z) : Prop :=
  (exists d, input_dim self = Some d /\ 1 <= d) /\
  1 <= num_embed self /\ 1 <= num_hidden self /\ 1 <= num_classes self /\
  1 <= seq_len.

(** The outputs of the top cell when no operator fails. *)
Definition stacked_outputs (self : H3RNNSeqClassifier) (seq_len : Z) : list Symbol :=
  foldl (fun outputs i =>
           unroll_outputs {| prefix := lstm_prefix (i + 2);
                             cell_hidden := num_hidden self |} seq_len (inr outputs))
        (unroll_outputs {| prefix := "lstm_1_"; cell_hidden := num_hidden self |}
           seq_len
           (inl (Embedding (SymVariable "data") (input_dim self) (num_embed self)
                   "embed")))
        (range (lstm_layer self - 1)).

(** The numbers of the layers of a network of [k] layers: the first cell is
    always there, the loop adds the cells [2 .. k]. *)
Definition layer_ids (k : Z) : list Z := 1 :: ((fun i => i + 2) <$> range (k - 1)).

(** A node sits on top of the stack [stk] of cells, and no other cell occurs
    anywhere below it. *)
Definition layered (stk : list string) (o : Symbol) : Prop :=
  stacked_cells o = stk /\ forall p, p ∈ step_cells o <-> p ∈ stk.

Section PredictInvariant.
Context {R : Type} (zero : R) (gtb : R -> R -> bool).

(** The state of the two output arrays of [predict] over [n] samples once
    the rows [seen] have been scattered: both arrays keep their length; a
    label is the arg-max of the row of scores at its position; a position
    no identifier of [seen] names still holds its zeros; the identifiers
    seen are positions of the arrays; and, as long as no identifier came
    twice, the row of scores carried with an identifier stands at that
    identifier's position. *)
Definition scattered (n : nat) (ncols : Z) (seen : list (list R * Z))
    (arrays : list Z * list (list R)) : Prop :=
  length arrays.1 = n /\ length arrays.2 = n /\
  (forall i l row,
     arrays.1 !! i = Some l -> arrays.2 !! i = Some row ->
     np_argmax gtb row = inr l) /\
  (forall i : nat,
     (i < n)%nat -> Z.of_nat i ∉ seen.*2 ->
     arrays.1 !! i = Some 0 /\
     arrays.2 !! i = Some (replicate (Z.to_nat ncols) zero)) /\
  Forall (fun idx => 0 <= idx < Z.of_nat n) seen.*2 /\
  (NoDup seen.*2 ->
   forall logits idx,
     (logits, idx) ∈ seen -> arrays.2 !! Z.to_nat idx = Some logits).

(** What the arg-max of a row is, said without the code: a position of the
    row whose entry no entry of the row exceeds, and the first such: the
    entry exceeds every entry before it. *)
Definition is_argmax (row : list R) (l : Z) : Prop :=
  0 <= l /\
  exists x,
    row !! Z.to_nat l = Some x /\
    (forall y, y ∈ row -> gtb y x = false) /\
    (forall (j : nat) y, (j < Z.to_nat l)%nat -> row !! j = Some y -> gtb x y = true).
End PredictInvariant.

(** An iterator constructor whose batches bring the identifier 0 twice, with
    a row of three tokens first and a row of two tokens after it. *)
Definition twice_iter (samples : list (list Z)) (labels : list Z)
    (batch_size : Z) : Exn + BucketSeqLabelIter :=
  inr (iter_of [ {| data := [[9; 9; 9]]; label := [[0]]; bucket_key := 3 |};
                 {| data := [[1; 2]]; label := [[0]]; bucket_key := 2 |} ]).

(** ** Further observations *)

(** The time step a node reads from the embedded input: following the data
    edge downwards, the index of the slice reached. *)
Fixpoint input_slice (s : Symbol) : option Z :=
  match s with
  | SliceT _ t => Some t
  | LSTMStep _ _ x _ => input_slice x
  | FullyConnected d _ _ | SoftmaxOutput d _ _ => input_slice d
  | SymVariable _ | BeginState _ | Embedding _ _ _ _ => None
  end.

(** The number of steps a cell has been through at a node: following the
    state edge back to the begin state. *)
Fixpoint unrolled_steps (s : Symbol) : nat :=
  match s with
  | LSTMStep _ _ _ st => S (unrolled_steps st)
  | FullyConnected d _ _ | SoftmaxOutput d _ _ => unrolled_steps d
  | SymVariable _ | BeginState _ | Embedding _ _ _ _ | SliceT _ _ => 0
  end.

(** The hidden size of every recurrent step anywhere in the graph. *)
Fixpoint step_hiddens (s : Symbol) : list Z :=
  match s with
  | SymVariable _ | BeginState _ => []
  | Embedding d _ _ _ | SliceT d _ | FullyConnected d _ _ => step_hiddens d
  | SoftmaxOutput d l _ => step_hiddens d ++ step_hiddens l
  | LSTMStep _ h x st => h :: step_hiddens x ++ step_hiddens st
  end.

(** The outputs of an unrolled cell, each at its time step: the output at
    index [t] reads the input at index [t] and has been through [t + 1]
    steps. *)
Definition timed (outs : list Symbol) : Prop :=
  forall (t : nat) o,
    outs !! t = Some o -> input_slice o = Some (Z.of_nat t) /\ unrolled_steps o = S t.

(** The module after a forward pass in inference mode on each of [bs]. *)
Definition forwarded (bs : list DataBatch) (m : BucketingModule) : BucketingModule :=
  foldl (fun m b => record_call (Forward b (Some false)) m) m bs.

(** The calls of one epoch with evaluation: the steps, then one scoring. *)
Definition epoch_calls (mt : Metric) (bs evs : list DataBatch) : list Call :=
  mjoin (step_calls <$> bs) ++ [Score evs mt].

(** The record [train_epochs] logs once epoch [e] (counted from 0) is scored. *)
Definition eval_record (name : string) (e : Z) : LogRecord :=
  Log INFO ("Training epoch " +:+ str (e + 1) +:+ " -- Evaluate " +:+ name +:+ ": %f").

Definition infos (rs : list LogRecord) : list LogRecord :=
  filter (fun r => level r = INFO) rs.

Section ScatterSpec.
Context {R : Type} (gtb : R -> R -> bool).

(** Writing one row of scores and its arg-max at the position its identifier
    names, for an identifier within the arrays. *)
Definition put (arrays : list Z * list (list R)) (row : list R * Z)
    : list Z * list (list R) :=
  (<[Z.to_nat row.2 := match np_argmax gtb row.1 with inr a => a | inl _ => 0 end]>
     arrays.1,
   <[Z.to_nat row.2 := row.1]> arrays.2).

Definition scatter_all (rows : list (list R * Z)) (arrays : list Z * list (list R))
    : list Z * list (list R) :=
  foldl put arrays rows.
End ScatterSpec.

(** * Properties *)

(** ** The symbol generator *)

Lemma length_range n : length (range n) = Z.to_nat n.
Proof. apply length_seqZ. Qed.

Lemma length_unroll_steps cell ins st :
  length (unroll_steps cell ins st) = length ins.
Proof.
  revert st. induction ins as [|x ins IH]; intros st; simpl; [done|].
  by rewrite IH.
Qed.

Lemma length_unroll cell n inputs :
  length (unroll_outputs cell n inputs) = length (normalize_sequence n inputs).
Proof. apply length_unroll_steps. Qed.

(** Unrolling a cell over layered inputs puts that cell on top of the stack,
    at every time step. *)
Lemma unroll_steps_layered cell stk ins st :
  Forall (layered stk) ins ->
  (forall p, p ∈ step_cells st -> p ∈ prefix cell :: stk) ->
  Forall (layered (prefix cell :: stk)) (unroll_steps cell ins st).
Proof.
  intros Hins. revert st.
  induction Hins as [|x ins [Hstack Hcells] _ IH]; intros st Hst; simpl.
  { constructor. }
  assert (layered (prefix cell :: stk)
            (LSTMStep (prefix cell) (cell_hidden cell) x st)) as Hh.
  { split; simpl; [by rewrite Hstack|].
    intros p. rewrite !elem_of_cons, elem_of_app, Hcells.
    split; [|tauto].
    intros [?|[?|Hp]]; [tauto..|].
    apply Hst in Hp. by apply elem_of_cons in Hp. }
  constructor; [done|].
  apply IH. intros p Hp. by apply Hh.
Qed.

Lemma unroll_layered cell stk n outs :
  Forall (layered stk) outs ->
  Forall (layered (prefix cell :: stk)) (unroll_outputs cell n (inr outs)).
Proof.
  intros H. apply unroll_steps_layered; [done|].
  simpl. intros p Hp. by apply elem_of_nil in Hp.
Qed.

Lemma unroll_first_layered cell n embeds :
  step_cells embeds = [] -> stacked_cells embeds = [] ->
  Forall (layered [prefix cell]) (unroll_outputs cell n (inl embeds)).
Proof.
  intros Hc Hs. apply unroll_steps_layered.
  - simpl. apply Forall_fmap, Forall_forall. intros t _.
    split; simpl; [done|]. by rewrite Hc.
  - simpl. intros p Hp. by apply elem_of_nil in Hp.
Qed.

(** The loop of the generator over the layer numbers [is]. *)
Lemma stack_layers_layered self seq_len (js : list Z) : forall outs stk,
  Forall (layered stk) outs ->
  let outs' :=
    foldl (fun outputs i =>
             unroll_outputs {| prefix := lstm_prefix (i + 2);
                       cell_hidden := num_hidden self |} seq_len (inr outputs))
          outs js in
  Forall (layered (reverse ((fun i => lstm_prefix (i + 2)) <$> js) ++ stk)) outs'
  /\ length outs' = length outs.
Proof.
  induction js as [|j js IH]; intros outs stk Houts; simpl.
  { done. }
  rewrite reverse_cons, <- app_assoc. simpl.
  destruct (IH _ _ (unroll_layered
                      {| prefix := lstm_prefix (j + 2);
                         cell_hidden := num_hidden self |}
                      stk seq_len outs Houts)) as [Hl Hlen].
  split; [exact Hl|].
  rewrite Hlen. apply length_unroll.
Qed.

Lemma append_underscore_inj s1 s2 : s1 +:+ "_" = s2 +:+ "_" -> s1 = s2.
Proof.
  revert s2. induction s1 as [|a s1 IH]; intros [|b s2] H.
  - done.
  - injection H as _ H. by destruct s2.
  - injection H as _ H. by destruct s1.
  - injection H as -> H. f_equal. by apply IH.
Qed.

Global Instance lstm_prefix_inj : Inj (=) (=) lstm_prefix.
Proof.
  intros i j H. unfold lstm_prefix, str in H.
  apply (inj (String.app "lstm_")) in H.
  apply append_underscore_inj in H.
  by apply (inj pretty) in H.
Qed.

Lemma NoDup_layer_ids k : NoDup (layer_ids k).
Proof.
  unfold layer_ids. apply NoDup_cons. split.
  - intros (i & Hi & Hin)%list_elem_of_fmap.
    apply elem_of_seqZ in Hin. lia.
  - apply NoDup_fmap_2; [intros i j; lia|]. apply NoDup_seqZ.
Qed.

Lemma length_layer_ids k : length (layer_ids k) = Z.to_nat (Z.max 1 k).
Proof.
  unfold layer_ids. simpl. rewrite length_fmap, length_range. lia.
Qed.

Lemma foldl_sum_unroll self seq_len (js : list Z) : forall outs,
  1 <= seq_len -> 1 <= num_hidden self ->
  foldl_sum (fun outputs i =>
               unroll {| prefix := lstm_prefix (i + 2);
                         cell_hidden := num_hidden self |} seq_len (inr outputs))
            outs js
  = inr (foldl (fun outputs i =>
                  unroll_outputs {| prefix := lstm_prefix (i + 2);
                                    cell_hidden := num_hidden self |}
                                 seq_len (inr outputs))
               outs js).
Proof.
  induction js as [|j js IH]; intros outs Hlen Hnh; simpl; [done|].
  unfold unroll at 1. simpl.
  rewrite (proj2 (Z.leb_le 1 seq_len) Hlen), (proj2 (Z.leb_le 1 _) Hnh). simpl.
  by apply IH.
Qed.

(** With valid sizes no operator fails, and the generator is the head on top
    of the last output of the top cell. *)
Lemma sym_gen_unfold self seq_len :
  valid_sizes self seq_len ->
  _sym_gen self seq_len
  = match index_last (stacked_outputs self seq_len) with
    | inl e => inl e
    | inr last_output =>
        inr (SoftmaxOutput (FullyConnected last_output (num_classes self) "logits")
               (SymVariable "softmax_label") "softmax",
             ["data"], ["softmax_label"])
    end.
Proof.
  intros ((d & Hd & Hd1) & He & Hh & Hc & Hl).
  unfold _sym_gen, mx_Embedding, mx_FullyConnected, bind_sum. rewrite Hd.
  rewrite (proj2 (Z.leb_le 1 d) Hd1), (proj2 (Z.leb_le 1 _) He). simpl.
  unfold unroll at 1. simpl.
  rewrite (proj2 (Z.leb_le 1 seq_len) Hl), (proj2 (Z.leb_le 1 _) Hh). simpl.
  rewrite (foldl_sum_unroll self seq_len _ _ Hl Hh).
  unfold stacked_outputs. rewrite Hd.
  destruct (index_last _); [done|].
  by rewrite (proj2 (Z.leb_le 1 _) Hc).
Qed.

(** A graph is returned with valid sizes only. *)
Lemma sym_gen_returns_valid self seq_len g :
  _sym_gen self seq_len = inr g -> valid_sizes self seq_len.
Proof.
  unfold _sym_gen, mx_Embedding, mx_FullyConnected, bind_sum, valid_sizes.
  destruct (input_dim self) as [d|]; [|done].
  destruct (Z.leb_spec 1 d); [|done].
  destruct (Z.leb_spec 1 (num_embed self)); [|done]. simpl.
  unfold unroll at 1. simpl.
  destruct (Z.leb_spec 1 seq_len); [|done].
  destruct (Z.leb_spec 1 (num_hidden self)); [|done]. simpl.
  destruct (foldl_sum _ _ _); [done|].
  destruct (index_last _); [done|].
  destruct (Z.leb_spec 1 (num_classes self)); [|done].
  intros _. eauto 10.
Qed.

Lemma layer_stack_eq (k : Z) :
  reverse ((fun i => lstm_prefix (i + 2)) <$> range (k - 1)) ++ ["lstm_1_"]
  = reverse (lstm_prefix <$> layer_ids k).
Proof.
  unfold layer_ids. rewrite fmap_cons, reverse_cons, <- list_fmap_compose.
  reflexivity.
Qed.

(** With valid sizes the generator returns a graph, and its output node sits
    on the stack of the cells [lstm_k_ .. lstm_1_]. *)
Lemma sym_gen_layered self seq_len :
  valid_sizes self seq_len ->
  exists pred,
    _sym_gen self seq_len = inr (pred, ["data"], ["softmax_label"]) /\
    layered (reverse (lstm_prefix <$> layer_ids (lstm_layer self))) pred.
Proof.
  intros Hv. rewrite (sym_gen_unfold self seq_len Hv). unfold stacked_outputs.
  destruct Hv as (_ & _ & _ & _ & Hlen).
  set (embeds := Embedding _ _ _ _).
  set (lstm_1 := {| prefix := "lstm_1_"; cell_hidden := num_hidden self |}).
  assert (Forall (layered ["lstm_1_"]) (unroll_outputs lstm_1 seq_len (inl embeds))) as H1.
  { by apply (unroll_first_layered lstm_1). }
  destruct (stack_layers_layered self seq_len (range (lstm_layer self - 1)) _ _ H1)
    as [Hl Hn].
  rewrite layer_stack_eq in Hl.
  rewrite length_unroll in Hn. simpl in Hn.
  rewrite length_fmap, length_range in Hn.
  match goal with |- context [index_last ?l] => set (outs := l) in * end.
  destruct (last outs) as [o|] eqn:Hlast.
  2:{ apply last_None in Hlast. rewrite Hlast in Hn. simpl in Hn. lia. }
  unfold index_last. rewrite Hlast.
  eexists. split; [reflexivity|].
  apply last_Some_elem_of in Hlast.
  rewrite Forall_forall in Hl. destruct (Hl _ Hlast) as [Hs Hc].
  split; simpl; [done|].
  intros p. rewrite app_nil_r. apply Hc.
Qed.

(** C4, as amended: with sizes the operators accept (a known vocabulary
    size, and every size and the sequence length at least 1) [_sym_gen]
    returns a graph, and a graph it returns has exactly [max 1 k] stacked
    recurrent cells for [lstm_layer = k], namely [lstm_k_ .. lstm_1_] from the
    top: exactly [k] cells when [k >= 1], and the one cell [lstm_1_] when
    [k <= 0]. *)
Theorem sym_gen_cell_count self seq_len :
  valid_sizes self seq_len ->
  exists pred,
    _sym_gen self seq_len = inr (pred, ["data"], ["softmax_label"]) /\
    stacked_cells pred = reverse (lstm_prefix <$> layer_ids (lstm_layer self)) /\
    length (stacked_cells pred) = Z.to_nat (Z.max 1 (lstm_layer self)) /\
    length (lstm_cells pred) = Z.to_nat (Z.max 1 (lstm_layer self)).
Proof.
  intros Hlen.
  destruct (sym_gen_layered self seq_len Hlen) as (pred & Hgen & Hs & Hc).
  exists pred. split; [done|]. split; [done|].
  assert (length (reverse (lstm_prefix <$> layer_ids (lstm_layer self)))
          = Z.to_nat (Z.max 1 (lstm_layer self))) as Hn.
  { by rewrite length_reverse, length_fmap, length_layer_ids. }
  split; [by rewrite Hs|].
  rewrite <- Hn. unfold lstm_cells. apply Permutation_length, NoDup_Permutation.
  - apply NoDup_remove_dups.
  - rewrite reverse_Permutation.
    apply NoDup_fmap_2; [apply _|apply NoDup_layer_ids].
  - intros p. rewrite elem_of_remove_dups. apply Hc.
Qed.

Lemma sym_gen_cell_count_witness :
  valid_sizes (small_self 3) 5 /\
  exists pred,
    _sym_gen (small_self 3) 5 = inr (pred, ["data"], ["softmax_label"]) /\
    stacked_cells pred = reverse (lstm_prefix <$> layer_ids 3) /\
    length (stacked_cells pred) = 3%nat /\
    length (lstm_cells pred) = 3%nat.
Proof.
  assert (valid_sizes (small_self 3) 5) as H.
  { unfold valid_sizes. simpl. split; [exists 10; split; [reflexivity|lia]|lia]. }
  split; [exact H|]. apply (sym_gen_cell_count (small_self 3) 5 H).
Defined.

(** C4, as stated, fails: with [lstm_layer = 0] the graph still holds the
    cell [lstm_1_]. *)
Lemma sym_gen_zero_layers_counterexample :
  ~ (forall self seq_len pred ins lbls,
       _sym_gen self seq_len = inr (pred, ins, lbls) ->
       len (lstm_cells pred) = lstm_layer self).
Proof.
  intros H.
  specialize (H (small_self 0) 1 _ _ _ eq_refl).
  vm_compute in H. discriminate.
Qed.

Example sym_gen_two_layers :
  sum_map id (fun g : Graph => stacked_cells g.1.1) (_sym_gen (small_self 2) 3)
  = inr ["lstm_2_"; "lstm_1_"].
Proof. reflexivity. Qed.

(** ** The constructor *)

Lemma init_after_logging env a lg :
  setup_logging env (arg_logging_root_dir a) (arg_logging_config a) = inr lg ->
  exists self,
    __init__ env a = inr self /\ logging self = lg /\ model self = None /\
    ctx self = (if truth (arg_use_gpus a) then CtxList (gpu <$> arg_use_gpus a)
                else if truth (arg_use_cpus a) then CtxList (cpu <$> arg_use_cpus a)
                else CtxOne (cpu 0)) /\
    metric self = (if String.eqb (arg_metric a) "acc" then Some Accuracy
                   else if String.eqb (arg_metric a) "cross-entropy"
                        then Some CrossEntropy
                   else if String.eqb (arg_metric a) "topk"
                        then Some (TopKAccuracy 3)
                   else None).
Proof.
  intros Hlg. unfold __init__. rewrite Hlg. eexists. by repeat split.
Qed.

Lemma init_raises_only_from_logging env a e :
  __init__ env a = inl e ->
  setup_logging env (arg_logging_root_dir a) (arg_logging_config a) = inl e.
Proof.
  unfold __init__.
  destruct (setup_logging env _ _) as [e'|lg]; [|done].
  by intros [= ->].
Qed.

(** C5: a metric identifier other than "acc", "cross-entropy" and "topk"
    passes through the constructor in silence: whenever the logging set-up
    goes through, the instance is built with its metric left unset, and an
    exception that does escape the constructor is the logging set-up's own. *)
Theorem init_unknown_metric_silent env a :
  arg_metric a ∉ known_metrics ->
  (forall lg,
     setup_logging env (arg_logging_root_dir a) (arg_logging_config a) = inr lg ->
     exists self, __init__ env a = inr self /\ metric self = None) /\
  (forall e,
     __init__ env a = inl e ->
     setup_logging env (arg_logging_root_dir a) (arg_logging_config a) = inl e).
Proof.
  intros Hm. split; [|intros e; apply init_raises_only_from_logging].
  intros lg Hlg.
  destruct (init_after_logging env a lg Hlg) as (self & Hself & _ & _ & _ & Hmetric).
  exists self. split; [done|]. rewrite Hmetric.
  unfold known_metrics in Hm. rewrite !not_elem_of_cons in Hm.
  destruct Hm as (H1 & H2 & H3 & _).
  apply String.eqb_neq in H1, H2, H3. by rewrite H1, H2, H3.
Qed.

Lemma init_unknown_metric_silent_witness :
  ("f1" ∉ known_metrics) /\
  exists self, __init__ quiet_env (example_args "f1" [] []) = inr self /\
               metric self = None.
Proof.
  assert ("f1" ∉ known_metrics) as H by compute_done.
  split; [exact H|].
  exact (proj1 (init_unknown_metric_silent quiet_env (example_args "f1" [] []) H)
               _ eq_refl).
Defined.

(** C9: a non-empty GPU list decides the device context on its own: the
    context is the list of the GPUs named, and the CPU list, empty or not,
    has no influence on what the constructor returns. *)
Theorem init_gpus_take_precedence env a :
  arg_use_gpus a <> [] ->
  (forall lg,
     setup_logging env (arg_logging_root_dir a) (arg_logging_config a) = inr lg ->
     exists self,
       __init__ env a = inr self /\ ctx self = CtxList (gpu <$> arg_use_gpus a)) /\
  (forall cpus, __init__ env (with_use_cpus cpus a) = __init__ env a).
Proof.
  intros Hgpus. split.
  - intros lg Hlg.
    destruct (init_after_logging env a lg Hlg) as (self & Hself & _ & _ & Hctx & _).
    exists self. split; [done|]. rewrite Hctx.
    by destruct (arg_use_gpus a).
  - intros cpus. unfold __init__. simpl.
    destruct (setup_logging env _ _); [done|].
    by destruct (arg_use_gpus a).
Qed.

Lemma init_gpus_take_precedence_witness :
  [0; 1] <> [] /\
  (exists self,
     __init__ quiet_env (example_args "acc" [0; 1] [2; 3]) = inr self /\
     ctx self = CtxList [gpu 0; gpu 1]) /\
  __init__ quiet_env (example_args "acc" [0; 1] [])
  = __init__ quiet_env (example_args "acc" [0; 1] [2; 3]).
Proof.
  assert ([0; 1] <> ([] : list Z)) as H by discriminate.
  split; [exact H|]. split.
  - exact (proj1 (init_gpus_take_precedence quiet_env
                    (example_args "acc" [0; 1] [2; 3]) H) _ eq_refl).
  - exact (proj2 (init_gpus_take_precedence quiet_env
                    (example_args "acc" [0; 1] [2; 3]) H) []).
Defined.

Example init_defaults :
  sum_map id (fun self => (metric self, ctx self, lstm_layer self, num_classes self))
    (__init__ quiet_env default_args)
  = inr (Some Accuracy, CtxOne (cpu 0), 1, 2).
Proof. reflexivity. Qed.

Example init_cpus_when_no_gpu :
  sum_map id ctx (__init__ quiet_env (example_args "acc" [] [2; 3]))
  = inr (CtxList [cpu 2; cpu 3]).
Proof. reflexivity. Qed.

Example init_default_device :
  sum_map id ctx (__init__ quiet_env (example_args "acc" [] []))
  = inr (CtxOne (cpu 0)).
Proof. reflexivity. Qed.

(** ** initialize *)

(** C6: an argument that is not a bucketing sequence iterator makes
    [initialize] raise a type error at once: the instance is left exactly as
    it was, so no module was built or bound and nothing was logged. *)
Theorem initialize_rejects_other_types env v self :
  isinstance_BucketSeqLabelIter v = None ->
  initialize env v self
  = (self, inl (Raise TypeError
                  "Data iterator for this model should be of type BucketSeqLabelIter.")).
Proof. intros Hv. unfold initialize. by rewrite Hv. Qed.

Lemma initialize_rejects_other_types_witness :
  isinstance_BucketSeqLabelIter (PyNDArrayIter []) = None /\
  initialize quiet_env (PyNDArrayIter []) (small_self 1)
  = (small_self 1,
     inl (Raise TypeError
            "Data iterator for this model should be of type BucketSeqLabelIter.")).
Proof.
  split; [reflexivity|].
  apply (initialize_rejects_other_types quiet_env (PyNDArrayIter []) (small_self 1)).
  reflexivity.
Defined.

(** When the parameters file is there and reading it fails with an I/O or a
    value error, [initialize] logs a warning and goes on to the optimizer;
    [init_params] is not called on this path, so the parameters stay as the
    binding left them, and the module refuses the optimizer. *)
Lemma initialize_load_failure env it self e :
  valid_sizes self (it_default_bucket_key it) ->
  isfile env (params_file self) = true ->
  load_outcome env (params_file self) = Some e ->
  kind e ∈ [IOError; ValueError] ->
  initialize env (PyBucketSeqLabelIter it) self
  = (emit (Log WARNING
             "Parameters file does not exist or not valid! please check the file.")
       (set_model (Some (bound_module self it)) self),
     inl (Raise AssertionError "init_optimizer")).
Proof.
  intros Hv Hfile Hload Hkind.
  destruct (sym_gen_layered self _ Hv) as (pred & Hgen & _).
  unfold initialize, isinstance_BucketSeqLabelIter, bind, get, modify, lift, new_module, model_call, try_except,
    load_params, logger, init_optimizer.
  cbv beta iota. rewrite Hgen. simpl. rewrite Hfile. simpl. rewrite Hload.
  rewrite bool_decide_eq_true_2 by done.
  reflexivity.
Qed.

(** When there is no parameters file the parameters are initialized afresh. *)
Lemma initialize_no_file env it self :
  valid_sizes self (it_default_bucket_key it) ->
  isfile env (params_file self) = false ->
  initialize env (PyBucketSeqLabelIter it) self
  = (emit (Log INFO "LSTM Model initialized.")
       (set_model
          (Some (set_optimizer (Some (optimizer self, learning_rate self))
                   (init_params (bound_module self it))))
          self),
     inr tt).
Proof.
  intros Hv Hfile.
  destruct (sym_gen_layered self _ Hv) as (pred & Hgen & _).
  unfold initialize, isinstance_BucketSeqLabelIter, bind, get, modify, lift, new_module, model_call, logger,
    init_optimizer.
  cbv beta iota. rewrite Hgen. simpl. rewrite Hfile. reflexivity.
Qed.

(** When the parameters file is read, the parameters are the loaded ones. *)
Lemma initialize_loaded env it self :
  valid_sizes self (it_default_bucket_key it) ->
  isfile env (params_file self) = true ->
  load_outcome env (params_file self) = None ->
  initialize env (PyBucketSeqLabelIter it) self
  = (emit (Log INFO ("LSTM model parameters loaded from file: "
                     +:+ params_file self +:+ "."))
       (set_model
          (Some (set_optimizer (Some (optimizer self, learning_rate self))
                   (set_params (Loaded (params_file self)) (bound_module self it))))
          self),
     inr tt).
Proof.
  intros Hv Hfile Hload.
  destruct (sym_gen_layered self _ Hv) as (pred & Hgen & _).
  unfold initialize, isinstance_BucketSeqLabelIter, bind, get, modify, lift, new_module, model_call, try_except,
    load_params, logger, init_optimizer.
  cbv beta iota. rewrite Hgen. simpl. rewrite Hfile. simpl. rewrite Hload. reflexivity.
Qed.

(** When the generator fails on the default bucket key, so does the
    constructor of the module, and the instance is left as it was. *)
Lemma initialize_generator_fails env it self e :
  _sym_gen self (it_default_bucket_key it) = inl e ->
  initialize env (PyBucketSeqLabelIter it) self = (self, inl e).
Proof.
  intros Hgen. unfold initialize, isinstance_BucketSeqLabelIter, bind, get, lift, new_module.
  cbv beta iota. by rewrite Hgen.
Qed.

Lemma small_self_valid k : valid_sizes (small_self k) (it_default_bucket_key two_batches).
Proof.
  unfold valid_sizes. simpl. split; [exists 10; split; [reflexivity|lia]|lia].
Qed.

(** C1 at a parameters file that is there and cannot be read: the warning
    is logged, but the parameters of the module end uninitialized and not
    freshly initialized, and the call does not even return: the module
    refuses the optimizer on uninitialized parameters. The sibling path
    without a file is the one that returns with fresh parameters. *)
Theorem initialize_unreadable_file_leaves_params_uninitialized :
  let after := initialize corrupt_env (PyBucketSeqLabelIter two_batches) (small_self 1) in
  let without_file := initialize quiet_env (PyBucketSeqLabelIter two_batches) (small_self 1) in
  after.2 = inl (Raise AssertionError "init_optimizer") /\
  warnings after.1
  = ["Parameters file does not exist or not valid! please check the file."] /\
  params <$> model after.1 = Some Uninitialized /\
  without_file.2 = inr tt /\
  params <$> model without_file.1 = Some Fresh.
Proof.
  intros after without_file. subst after without_file.
  rewrite (initialize_load_failure corrupt_env two_batches (small_self 1)
             (Raise IOError "cannot read lstm.params") (small_self_valid 1));
    [|reflexivity|reflexivity|by left].
  rewrite (initialize_no_file quiet_env two_batches (small_self 1)
             (small_self_valid 1)) by reflexivity.
  by repeat split.
Qed.


(** ** save *)

Lemma save_bound path epoch self m :
  model self = Some m ->
  let path' := if truth epoch then path +:+ "-" +:+ str_of epoch else path in
  save path epoch self
  = (emit (Log INFO ("Network parameters saved in " +:+ path'))
       (set_model (Some (record_call (SaveParams path') m)) self),
     inr tt).
Proof.
  intros Hm. unfold save, bind, model_call, logger, modify.
  rewrite Hm. reflexivity.
Qed.

Lemma saved_paths_app cs1 cs2 :
  saved_paths (cs1 ++ cs2) = saved_paths cs1 ++ saved_paths cs2.
Proof. apply omap_app. Qed.

(** With an epoch other than zero the file written is the path followed by
    a dash and the epoch. *)
Lemma save_with_epoch path (z : Z) self m :
  model self = Some m -> z <> 0 ->
  exists self',
    save path (Some z) self = (self', inr tt) /\
    written_paths self' = written_paths self ++ [path +:+ "-" +:+ str z].
Proof.
  intros Hm Hz. eexists. split; [by apply save_bound|].
  unfold written_paths. simpl. rewrite Hm. simpl.
  rewrite saved_paths_app. simpl.
  unfold truth, Truthy_optional, truth, Truthy_int.
  by rewrite (proj2 (Z.eqb_neq z 0) Hz).
Qed.

(** Without an epoch the file written is the path itself. *)
Lemma save_without_epoch path self m :
  model self = Some m ->
  exists self',
    save path None self = (self', inr tt) /\
    written_paths self' = written_paths self ++ [path].
Proof.
  intros Hm. eexists. split; [by apply save_bound|].
  unfold written_paths. simpl. rewrite Hm. simpl.
  by rewrite saved_paths_app.
Qed.

(** The epoch zero counts as no epoch. *)
Lemma save_epoch_zero path self m :
  model self = Some m ->
  exists self',
    save path (Some 0) self = (self', inr tt) /\
    written_paths self' = written_paths self ++ [path].
Proof.
  intros Hm. eexists. split; [by apply save_bound|].
  unfold written_paths. simpl. rewrite Hm. simpl.
  by rewrite saved_paths_app.
Qed.

(** C3 at epoch 0: [save("lstm", epoch=0)] on an initialized instance writes
    the file "lstm", with no "-0" appended, whereas epoch 5 gives "lstm-5". *)
Theorem save_epoch_zero_drops_suffix :
  written_paths (save "lstm" (Some 0) (bound_self 1)).1 = ["lstm"] /\
  written_paths (save "lstm" (Some 5) (bound_self 1)).1 = ["lstm-5"] /\
  written_paths (save "lstm" None (bound_self 1)).1 = ["lstm"].
Proof. by repeat split. Qed.

(** ** train_epochs *)

Lemma for_each_app {St A} (l1 l2 : list A) (body : A -> Py St unit) s :
  for_each (l1 ++ l2) body s = bind (for_each l1 body) (fun _ => for_each l2 body) s.
Proof.
  revert s. induction l1 as [|x l1 IH]; intros s; simpl.
  { reflexivity. }
  unfold bind at 1 2 3.
  destruct (body x s) as [s' [e|[]]]; [done|].
  by rewrite IH.
Qed.

(** One step on an instance whose module is there, on a batch whose metric
    update goes through: the three calls on the module, in order, and one
    debug record. *)
Lemma step_bound mu b self m :
  model self = Some m ->
  mu b = None ->
  step mu b self
  = (set_model (Some (record_call Update
                        (record_call Backward (record_call (Forward b None) m))))
       (emit (Log DEBUG "train step cross-entropy: %f") self),
     inr tt).
Proof.
  intros Hm Hmu. unfold step, bind, model_call, logger, modify, lift.
  rewrite Hm, Hmu. reflexivity.
Qed.

(** A step whose metric update raises stops there: the forward pass is on
    the trace, the backward pass and the update are not, and nothing is
    logged. *)
Lemma step_metric_raises mu b self m e :
  model self = Some m ->
  mu b = Some e ->
  step mu b self
  = (set_model (Some (record_call (Forward b None) m)) self, inl e).
Proof.
  intros Hm Hmu. unfold step, bind, model_call, logger, modify, lift.
  rewrite Hm, Hmu. reflexivity.
Qed.

Lemma steps_bound mu bs : forall self m,
  model self = Some m ->
  Forall (fun b => mu b = None) bs ->
  exists self' m',
    for_each bs (step mu) self = (self', inr tt) /\
    model self' = Some m' /\
    calls m' = calls m ++ mjoin (step_calls <$> bs).
Proof.
  induction bs as [|b bs IH]; intros self m Hm Hmu; simpl.
  { exists self, m. by rewrite app_nil_r. }
  apply Forall_cons in Hmu as [Hb Hmu].
  unfold bind. rewrite (step_bound mu b self m Hm Hb).
  match goal with
  | |- context [for_each bs (step mu) ?s] =>
      destruct (IH s _ eq_refl Hmu) as (self' & m' & Hrun & Hm' & Hcalls)
  end.
  exists self', m'. split; [exact Hrun|]. split; [exact Hm'|].
  rewrite Hcalls. simpl. by rewrite <- !app_assoc.
Qed.

(** The loop over the batches of an epoch is the sequence of the steps on
    them; it leaves the iterator exhausted. *)
Lemma for_batches_steps mu bs : forall st self',
  pending (train_data st) = bs ->
  for_each bs (step mu) (self_of st) = (self', inr tt) ->
  for_batches bs (fun batch => on_self (step mu batch)) st
  = ({| self_of := self'; train_data := exhausted (train_data st);
        eval_data := eval_data st |}, inr tt).
Proof.
  induction bs as [|b bs IH]; intros st self' Hpend Hrun; simpl in *.
  { destruct st as [s [] ev]; simpl in *. unfold ret in *. by simplify_eq. }
  unfold bind, modify, on_self in *. simpl.
  destruct (step mu b (self_of st)) as [s1 [e|[]]]; [done|].
  by rewrite (IH {| self_of := s1;
                    train_data := set_pending bs (train_data st);
                    eval_data := eval_data st |} self').
Qed.

Lemma epoch_batches_S it n :
  epoch_batches it (S n)
  = schedule it (resets it) ++ epoch_batches (exhausted (reset it)) n.
Proof. reflexivity. Qed.

(** One epoch without an evaluation iterator: reset, then the steps. *)
Lemma epoch_without_eval mu e st s1 :
  eval_data st = None ->
  for_each (schedule (train_data st) (resets (train_data st))) (step mu) (self_of st)
  = (s1, inr tt) ->
  epoch mu e st
  = ({| self_of := s1; train_data := exhausted (reset (train_data st));
        eval_data := None |}, inr tt).
Proof.
  intros Hev Hrun.
  pose proof (for_batches_steps mu _ (set_train_data (reset (train_data st)) st) s1
                eq_refl Hrun) as Hb.
  simpl in Hb.
  unfold epoch, bind, modify, get. simpl.
  rewrite Hb. simpl. rewrite Hev. reflexivity.
Qed.

(** Without an evaluation iterator, and when the metric update of every
    batch goes through, the loop over the epochs is the sequence of the
    steps on all batches of all epochs. *)
Lemma epochs_steps mu es : forall st m,
  eval_data st = None ->
  model (self_of st) = Some m ->
  (forall k, Forall (fun b => mu b = None) (schedule (train_data st) k)) ->
  exists st',
    for_each es (epoch mu) st = (st', inr tt) /\
    for_each (epoch_batches (train_data st) (length es)) (step mu) (self_of st)
    = (self_of st', inr tt).
Proof.
  induction es as [|e es IH]; intros st m Hev Hm Hmu.
  { exists st. by destruct st. }
  destruct (steps_bound mu (schedule (train_data st) (resets (train_data st)))
              (self_of st) m Hm (Hmu _)) as (s1 & m1 & Hrun & Hm1 & _).
  pose (st1 := {| self_of := s1; train_data := exhausted (reset (train_data st));
                  eval_data := None |}).
  destruct (IH st1 m1 eq_refl Hm1 Hmu) as (st' & Hrest & Hsteps).
  exists st'. split.
  - simpl. unfold bind. by rewrite (epoch_without_eval mu e st s1 Hev Hrun).
  - simpl length. rewrite epoch_batches_S, for_each_app.
    unfold bind. rewrite Hrun. exact Hsteps.
Qed.

Lemma length_epochs it (B : nat) :
  (forall k, length (schedule it k) = B) ->
  forall n start, length (mjoin (schedule it <$> seq start n)) = (n * B)%nat.
Proof.
  intros HB. induction n as [|n IH]; intros start; simpl; [done|].
  by rewrite length_app, HB, IH.
Qed.

Lemma epoch_batches_complete (mu : DataBatch -> option Exn) it :
  (forall k, Forall (fun b => mu b = None) (schedule it k)) ->
  forall n, Forall (fun b => mu b = None) (epoch_batches it n).
Proof.
  intros Hmu n. unfold epoch_batches.
  apply Forall_forall. intros b (l & Hb & (k & -> & _)%list_elem_of_fmap)%list_elem_of_join.
  by apply (proj1 (Forall_forall _ _) (Hmu k)).
Qed.

Lemma step_calls_no_score bs c :
  c ∈ mjoin (step_calls <$> bs) -> is_score c = false.
Proof.
  intros (l & Hc & (b & -> & _)%list_elem_of_fmap)%list_elem_of_join.
  unfold step_calls in Hc.
  repeat (apply elem_of_cons in Hc as [->|Hc]; [done|]).
  by apply elem_of_nil in Hc.
Qed.


Lemma class_batches_complete k :
  Forall (fun b => cross_entropy_update 2 b = None) (schedule class_batches k).
Proof. by repeat constructor. Qed.


(** ** predict *)

(** A loop that carries local variables, by the rows it has been through. *)
Lemma for_fold_ind {St A B} (I : list A -> B -> St -> Prop) (l : list A)
    (body : B -> A -> Py St B) :
  (forall seen x rest acc s,
     l = seen ++ x :: rest -> I seen acc s ->
     exists acc' s', body acc x s = (s', inr acc') /\ I (seen ++ [x]) acc' s') ->
  forall acc s,
    I [] acc s ->
    exists acc' s', for_fold l acc body s = (s', inr acc') /\ I l acc' s'.
Proof.
  intros Hbody.
  assert (forall rest seen acc s,
            l = seen ++ rest -> I seen acc s ->
            exists acc' s', for_fold rest acc body s = (s', inr acc') /\ I l acc' s')
    as Hgen.
  { induction rest as [|x rest IH]; intros seen acc s Hl HI; simpl.
    - rewrite app_nil_r in Hl. subst. by exists acc, s.
    - destruct (Hbody seen x rest acc s Hl HI) as (acc1 & s1 & Hx & HI1).
      unfold bind. rewrite Hx.
      apply (IH (seen ++ [x])); [|done].
      by rewrite <- app_assoc. }
  intros acc s HI. by apply (Hgen l []).
Qed.

Section PredictProperties.
Context {R : Type} (zero : R) (gtb : R -> R -> bool).
Variable net : DataBatch -> list (list R).
Variable new_BucketSeqLabelIter :
  list (list Z) -> list Z -> Z -> Exn + BucketSeqLabelIter.
Hypothesis gtb_zero : gtb zero zero = false.

Lemma argmax_from_zeros k : forall best_i i,
  argmax_from gtb zero best_i i (replicate k zero) = best_i.
Proof.
  induction k as [|k IH]; intros best_i i; simpl; [done|].
  by rewrite gtb_zero, IH.
Qed.

Lemma np_argmax_zeros ncols :
  0 < ncols -> np_argmax gtb (replicate (Z.to_nat ncols) zero) = inr 0.
Proof.
  intros Hn. destruct (Z.to_nat ncols) as [|k] eqn:Hk; [lia|].
  simpl. by rewrite argmax_from_zeros.
Qed.

Lemma scattered_zeros (n : nat) ncols :
  0 < ncols ->
  scattered zero gtb n ncols []
    (replicate n 0, replicate n (replicate (Z.to_nat ncols) zero)).
Proof.
  intros Hn. unfold scattered. simpl.
  rewrite !length_replicate.
  split; [done|]. split; [done|]. split; [|split; [|split]].
  - intros i l row [-> _]%lookup_replicate [-> _]%lookup_replicate.
    by apply np_argmax_zeros.
  - intros i Hi _. by rewrite !lookup_replicate_2.
  - constructor.
  - intros _ logits idx Hin. by apply elem_of_nil in Hin.
Qed.

Lemma norm_index_in_range n idx :
  0 <= idx < n -> norm_index n idx = inr (Z.to_nat idx).
Proof.
  intros H. unfold norm_index.
  by rewrite (proj2 (Z.leb_le 0 idx)), (proj2 (Z.ltb_lt idx n)) by lia.
Qed.

(** Lines 217-219 keep the invariant: one more row scattered. *)
Lemma scatter_step (n : nat) ncols seen arrays logits idx (s : H3RNNSeqClassifier) :
  scattered zero gtb n ncols seen arrays ->
  0 <= idx < Z.of_nat n ->
  len logits = ncols -> 0 < ncols ->
  exists arrays',
    scatter gtb ncols arrays (logits, idx) s = (s, inr arrays') /\
    scattered zero gtb n ncols (seen ++ [(logits, idx)]) arrays'.
Proof.
  destruct arrays as [labels scores].
  intros (Hl1 & Hl2 & Hmax & Hzero & Hrange & Hplace) Hidx Hlen Hn. simpl in *.
  destruct logits as [|x logits]; [unfold len in Hlen; simpl in Hlen; lia|].
  set (row := x :: logits) in *.
  exists (<[Z.to_nat idx := argmax_from gtb x 0 1 logits]> labels,
          <[Z.to_nat idx := row]> scores).
  split.
  { unfold scatter, bind, lift, setitem, broadcast_row, np_argmax. subst row.
    rewrite (norm_index_in_range (len labels) idx) by (unfold len; lia).
    rewrite (proj2 (Z.eqb_eq _ ncols) Hlen).
    by rewrite (norm_index_in_range (len scores) idx) by (unfold len; lia). }
  unfold scattered. simpl. rewrite !length_insert.
  split; [done|]. split; [done|]. split; [|split; [|split]].
  - intros i l r Hl Hr.
    destruct (decide (i = Z.to_nat idx)) as [->|Hne].
    + rewrite list_lookup_insert_eq in Hl by lia.
      rewrite list_lookup_insert_eq in Hr by lia. by simplify_eq.
    + rewrite list_lookup_insert_ne in Hl by done.
      rewrite list_lookup_insert_ne in Hr by done. by eapply Hmax.
  - intros i Hi Hnot. rewrite fmap_app, not_elem_of_app in Hnot.
    destruct Hnot as [Hnot Hne]. simpl in Hne.
    rewrite not_elem_of_cons in Hne. destruct Hne as [Hne _].
    rewrite !list_lookup_insert_ne by lia. by apply Hzero.
  - rewrite fmap_app. apply Forall_app. split; [done|].
    simpl. by constructor.
  - rewrite fmap_app. simpl. intros Hnd lg id Hin.
    apply NoDup_app in Hnd as (Hnd & Hfresh & _).
    apply elem_of_app in Hin as [Hin|Hin].
    + assert (id ∈ seen.*2) as Hid.
      { apply list_elem_of_fmap. by exists (lg, id). }
      assert (id <> idx) as Hne.
      { intros ->. apply (Hfresh idx Hid). by left. }
      rewrite Forall_forall in Hrange. specialize (Hrange id Hid).
      rewrite list_lookup_insert_ne by lia. by apply Hplace.
    + apply list_elem_of_singleton in Hin. simplify_eq.
      rewrite list_lookup_insert_eq by lia. done.
Qed.
Lemma batch_rows_ids b logits idx :
  (logits, idx) ∈ batch_rows net b -> logits ∈ net b /\ idx ∈ batch_ids b.
Proof.
  intros H. split; [by eapply elem_of_zip_l|by eapply elem_of_zip_r].
Qed.

Lemma yielded_rows_ids it idx :
  idx ∈ (yielded_rows net it).*2 -> idx ∈ yielded_ids it.
Proof.
  intros ([logits idx'] & -> & Hin)%list_elem_of_fmap.
  apply list_elem_of_join in Hin as (rows & Hin & (b & -> & Hb)%list_elem_of_fmap).
  apply batch_rows_ids in Hin as [_ Hin].
  apply list_elem_of_join. exists (batch_ids b). split; [done|].
  by apply list_elem_of_fmap_2.
Qed.

(** Lines 215-219 keep the invariant: the rows of one more batch scattered,
    and the module that ran the forward pass still in place. *)
Lemma predict_batch_step (n : nat) ncols seen arrays b self m :
  scattered zero gtb n ncols seen arrays ->
  model self = Some m ->
  label b <> [] ->
  Forall (fun idx => 0 <= idx < Z.of_nat n) (batch_ids b) ->
  Forall (fun row => len row = ncols) (net b) ->
  0 < ncols ->
  exists arrays' self',
    predict_batch gtb net ncols arrays b self = (self', inr arrays') /\
    model self' = Some (record_call (Forward b (Some false)) m) /\
    scattered zero gtb n ncols (seen ++ batch_rows net b) arrays'.
Proof.
  intros Hinv Hm Hlabel Hids Hfit Hn.
  unfold predict_batch, bind, model_call, lift. rewrite Hm. simpl.
  unfold batch_rows, batch_ids in *.
  destruct (label b) as [|ids more]; [done|]. simpl in *.
  set (s1 := set_model _ _).
  destruct (for_fold_ind
              (fun sofar acc s => s = s1 /\ scattered zero gtb n ncols (seen ++ sofar) acc)
              (zip (net b) ids) (scatter gtb ncols)) with (acc := arrays) (s := s1)
    as (arrays' & s' & Hrun & -> & Hinv').
  - intros sofar [logits idx] rest acc s Hzip [-> Hacc].
    assert ((logits, idx) ∈ zip (net b) ids) as Hin.
    { rewrite Hzip. apply elem_of_app. right. by left. }
    destruct (scatter_step n ncols (seen ++ sofar) acc logits idx s1 Hacc)
      as (acc' & Hscatter & Hacc').
    + rewrite Forall_forall in Hids. apply Hids. by eapply elem_of_zip_r.
    + rewrite Forall_forall in Hfit. apply Hfit. by eapply elem_of_zip_l.
    + done.
    + exists acc', s1. rewrite <- app_assoc in Hacc'. done.
  - by rewrite app_nil_r.
  - exists arrays', s1. done.
Qed.

(** What [predict] leaves in its two arrays, under what it relies on from its
    collaborators: the module is there, a row of scores has one entry per
    class, the iterator is built, and its batches carry identifiers of the
    samples passed in. *)
Lemma predict_scattered self m test_data batch_size it :
  model self = Some m ->
  0 < num_classes self ->
  new_BucketSeqLabelIter test_data (range (len test_data)) batch_size = inr it ->
  carries_ids (len test_data) it ->
  rows_fit net (num_classes self) it ->
  exists self' arrays,
    predict zero gtb net new_BucketSeqLabelIter test_data batch_size self
    = (self', inr arrays) /\
    scattered zero gtb (length test_data) (num_classes self)
      (yielded_rows net it) arrays.
Proof.
  intros Hm Hn Hnew [Hlabel Hids] Hfit.
  unfold predict, bind, get, lift, np_zeros2, np_zeros.
  rewrite (proj2 (Z.ltb_ge (len test_data) 0)) by (unfold len; lia).
  rewrite (proj2 (Z.ltb_ge (num_classes self) 0)) by lia.
  rewrite Hnew. unfold len at 1 2. rewrite !Nat2Z.id.
  unfold yielded_rows, yielded_ids, rows_fit, len in *.
  destruct (for_fold_ind
              (fun sofar acc s =>
                 (exists m', model s = Some m') /\
                 scattered zero gtb (length test_data) (num_classes self)
                   (mjoin (batch_rows net <$> sofar)) acc)
              (pending it) (predict_batch gtb net (num_classes self)))
    with (acc := (replicate (length test_data) 0,
                  replicate (length test_data)
                    (replicate (Z.to_nat (num_classes self)) zero)))
         (s := self)
    as (arrays & self' & Hrun & _ & Hinv).
  - intros sofar b rest acc s Hpend [[m' Hm'] Hacc].
    assert (b ∈ pending it) as Hb.
    { rewrite Hpend. apply elem_of_app. right. by left. }
    destruct (predict_batch_step (length test_data) (num_classes self) _ acc b s m'
                Hacc Hm') as (acc' & s' & Hbatch & Hs' & Hacc').
    + rewrite Forall_forall in Hlabel. by apply Hlabel.
    + rewrite Forall_forall in Hids |- *. intros idx Hidx. apply Hids.
      apply list_elem_of_join. exists (batch_ids b). split; [done|].
      by apply list_elem_of_fmap_2.
    + rewrite Forall_forall in Hfit. by apply Hfit.
    + done.
    + exists acc', s'. split; [done|]. split; [by eexists|].
      rewrite fmap_app, join_app. simpl. by rewrite app_nil_r.
  - split; [by eexists|]. by apply scattered_zeros.
  - by exists self', arrays.
Qed.

(** The scan of [np_argmax], by the entries it has been through: the best
    entry so far is exceeded by none of them and exceeds all that came before
    it. The order on the scores is a strict weak order: asymmetric, and an
    entry above another is above or below any third. *)
Lemma argmax_from_spec :
  (forall x y, gtb x y = true -> gtb y x = false) ->
  (forall x y z, gtb x y = true -> gtb x z = true \/ gtb z y = true) ->
  forall l pre best best_i i,
    i = Z.of_nat (length pre) ->
    0 <= best_i ->
    pre !! Z.to_nat best_i = Some best ->
    (forall y, y ∈ pre -> gtb y best = false) ->
    (forall (j : nat) y,
       (j < Z.to_nat best_i)%nat -> pre !! j = Some y -> gtb best y = true) ->
    is_argmax gtb (pre ++ l) (argmax_from gtb best best_i i l).
Proof.
  intros Hasym Hcot.
  induction l as [|x l IH]; intros pre best best_i i Hi Hpos Hbest Hmax Hfirst; simpl.
  { rewrite app_nil_r. split; [done|]. by exists best. }
  assert (Z.to_nat best_i < length pre)%nat as Hlt by (by eapply lookup_lt_Some).
  replace (pre ++ x :: l) with ((pre ++ [x]) ++ l) by (by rewrite <- app_assoc).
  destruct (gtb x best) eqn:Hx.
  - apply IH.
    + rewrite length_app. simpl. lia.
    + lia.
    + apply list_lookup_middle. lia.
    + intros y [Hy|Hy%list_elem_of_singleton]%elem_of_app.
      * destruct (gtb y x) eqn:Hyx; [|done].
        destruct (Hcot y x best Hyx) as [Hc|Hc].
        -- by rewrite (Hmax y Hy) in Hc.
        -- by rewrite (Hasym x best Hx) in Hc.
      * subst y. destruct (gtb x x) eqn:Hxx; [|done].
        by rewrite (Hasym x x Hxx) in Hxx.
    + intros j y Hj Hy.
      rewrite lookup_app_l in Hy by lia.
      destruct (Hcot x best y Hx) as [Hc|Hc]; [done|].
      by rewrite (Hmax y (list_elem_of_lookup_2 _ _ _ Hy)) in Hc.
  - apply IH.
    + rewrite length_app. simpl. lia.
    + done.
    + by rewrite lookup_app_l.
    + intros y [Hy|Hy%list_elem_of_singleton]%elem_of_app; [by apply Hmax|by subst y].
    + intros j y Hj Hy.
      rewrite lookup_app_l in Hy by lia. by eapply Hfirst.
Qed.

(** What [np_argmax] returns on a row is the arg-max of the row. *)
Lemma np_argmax_is_argmax row l :
  (forall x y, gtb x y = true -> gtb y x = false) ->
  (forall x y z, gtb x y = true -> gtb x z = true \/ gtb z y = true) ->
  np_argmax gtb row = inr l ->
  is_argmax gtb row l.
Proof.
  intros Hasym Hcot Hrow. destruct row as [|x row]; [done|].
  simpl in Hrow. injection Hrow as <-.
  apply (argmax_from_spec Hasym Hcot row [x] x 0 1); [done|done|done| |].
  - intros y ->%list_elem_of_singleton.
    destruct (gtb x x) eqn:Hxx; [|done]. by rewrite (Hasym x x Hxx) in Hxx.
  - intros j y Hj. simpl in Hj. lia.
Qed.



End PredictProperties.

(** *** The predict claims on the doubles *)

Example predict_four_samples :
  (predict 0 Z.gtb toy_net last_first_iter four_samples 32 (bound_self 1)).2
  = inr ([0; 0; 0; 0], [[2; 1]; [0; 0]; [3; 1]; [1; 1]]).
Proof. reflexivity. Qed.

(** With [peaked_net] the longer samples get the second class: the label
    follows the scores. *)
Example predict_four_samples_peaked :
  (predict 0 Z.gtb peaked_net last_first_iter four_samples 32 (bound_self 1)).2
  = inr ([1; 0; 1; 0], [[1; 2]; [0; 0]; [1; 3]; [1; 1]]).
Proof. reflexivity. Qed.

Lemma Z_gtb_asym x y : (x >? y) = true -> (y >? x) = false.
Proof. rewrite !Z.gtb_ltb, Z.ltb_lt, Z.ltb_ge. lia. Qed.

Lemma Z_gtb_cotrans x y z : (x >? y) = true -> (x >? z) = true \/ (z >? y) = true.
Proof. rewrite !Z.gtb_ltb, !Z.ltb_lt. lia. Qed.



(** * Further properties *)

(** ** The symbol generator, continued *)

(** Unrolling keeps the time steps apart: the output at index [t] reads the
    input at index [t] and has been through [t + 1] steps of its cell. *)
Lemma unroll_steps_timed cell ins : forall (d : nat) st,
  unrolled_steps st = d ->
  (forall (t : nat) x, ins !! t = Some x -> input_slice x = Some (Z.of_nat (d + t))) ->
  forall (t : nat) o,
    unroll_steps cell ins st !! t = Some o ->
    input_slice o = Some (Z.of_nat (d + t)) /\ unrolled_steps o = S (d + t).
Proof.
  induction ins as [|x ins IH]; intros d st Hst Hins t o Ho; simpl in *.
  { by rewrite lookup_nil in Ho. }
  destruct t as [|t]; simpl in Ho.
  - injection Ho as <-. simpl. split; [by apply (Hins 0%nat)|].
    by rewrite Hst, Nat.add_0_r.
  - replace (d + S t)%nat with (S d + t)%nat by lia.
    eapply (IH (S d)); [|
      |exact Ho].
    + simpl. by rewrite Hst.
    + intros t' x' Hx'. replace (S d + t')%nat with (d + S t')%nat by lia.
      by apply Hins.
Qed.

Lemma unroll_timed cell n outs : timed outs -> timed (unroll_outputs cell n (inr outs)).
Proof.
  intros H t o Ho.
  apply (unroll_steps_timed cell outs 0 (BeginState (prefix cell)) eq_refl) in Ho;
    [done|].
  intros t' x Hx. by apply H.
Qed.

Lemma unroll_first_timed cell n s : timed (unroll_outputs cell n (inl s)).
Proof.
  intros t o Ho.
  apply (unroll_steps_timed cell _ 0 (BeginState (prefix cell)) eq_refl) in Ho;
    [done|].
  intros t' x Hx. simpl in Hx. unfold range in Hx.
  rewrite list_lookup_fmap in Hx.
  destruct (seqZ 0 n !! t') as [z|] eqn:Hz; [|done].
  apply lookup_seqZ in Hz as [-> _]. simpl in Hx. injection Hx as <-.
  simpl. f_equal; lia.
Qed.

Lemma stack_layers_timed self seq_len (js : list Z) : forall outs,
  timed outs ->
  timed (foldl (fun outputs i =>
                  unroll_outputs {| prefix := lstm_prefix (i + 2);
                            cell_hidden := num_hidden self |} seq_len (inr outputs))
               outs js).
Proof.
  induction js as [|j js IH]; intros outs Houts; simpl; [done|].
  by apply IH, unroll_timed.
Qed.

(** X1: with sizes the operators accept, the classifier head of the graph
    reads the top cell at its last time step: the node it is fed has been
    through [seq_len] steps of its cell, and the input below it is the slice
    [seq_len - 1] of the embedded sequence. *)
Theorem sym_gen_reads_last_time_step self seq_len :
  valid_sizes self seq_len ->
  exists top,
    _sym_gen self seq_len
    = inr (SoftmaxOutput (FullyConnected top (num_classes self) "logits")
             (SymVariable "softmax_label") "softmax",
           ["data"], ["softmax_label"]) /\
    input_slice top = Some (seq_len - 1) /\
    unrolled_steps top = Z.to_nat seq_len.
Proof.
  intros Hv. rewrite (sym_gen_unfold self seq_len Hv). unfold stacked_outputs.
  destruct Hv as (_ & _ & _ & _ & Hlen).
  set (embeds := Embedding _ _ _ _).
  set (lstm_1 := {| prefix := "lstm_1_"; cell_hidden := num_hidden self |}).
  pose proof (unroll_first_timed lstm_1 seq_len embeds) as H1.
  assert (Forall (layered ["lstm_1_"]) (unroll_outputs lstm_1 seq_len (inl embeds))) as HL.
  { by apply (unroll_first_layered lstm_1). }
  destruct (stack_layers_layered self seq_len (range (lstm_layer self - 1)) _ _ HL)
    as [_ Hn].
  apply (stack_layers_timed self seq_len (range (lstm_layer self - 1))) in H1.
  rewrite length_unroll in Hn. simpl in Hn.
  rewrite length_fmap, length_range in Hn.
  match goal with |- context [index_last ?l] => set (outs := l) in * end.
  unfold index_last. rewrite last_lookup.
  destruct (lookup_lt_is_Some_2 outs (pred (length outs))) as [top Htop]; [lia|].
  rewrite Htop. exists top. split; [done|].
  destruct (H1 _ _ Htop) as [Hslice Hsteps].
  rewrite Hslice, Hsteps, Hn. split; [f_equal|]; lia.
Qed.

Lemma sym_gen_reads_last_time_step_witness :
  valid_sizes (small_self 2) 7 /\
  exists top,
    _sym_gen (small_self 2) 7
    = inr (SoftmaxOutput (FullyConnected top (num_classes (small_self 2)) "logits")
             (SymVariable "softmax_label") "softmax",
           ["data"], ["softmax_label"]) /\
    input_slice top = Some (7 - 1) /\
    unrolled_steps top = Z.to_nat 7.
Proof.
  assert (valid_sizes (small_self 2) 7) as H.
  { unfold valid_sizes. simpl. split; [exists 10; split; [reflexivity|lia]|lia]. }
  split; [exact H|]. apply (sym_gen_reads_last_time_step (small_self 2) 7 H).
Defined.

Lemma unroll_steps_hidden cell ins st :
  Forall (fun x => Forall (eq (cell_hidden cell)) (step_hiddens x)) ins ->
  Forall (eq (cell_hidden cell)) (step_hiddens st) ->
  Forall (fun o => Forall (eq (cell_hidden cell)) (step_hiddens o))
         (unroll_steps cell ins st).
Proof.
  intros Hins. revert st.
  induction Hins as [|x ins Hx _ IH]; intros st Hst; simpl; constructor.
  - simpl. constructor; [done|]. by apply Forall_app.
  - apply IH. simpl. constructor; [done|]. by apply Forall_app.
Qed.

Lemma stack_layers_hidden self seq_len (js : list Z) : forall outs,
  Forall (fun o => Forall (eq (num_hidden self)) (step_hiddens o)) outs ->
  Forall (fun o => Forall (eq (num_hidden self)) (step_hiddens o))
    (foldl (fun outputs i =>
              unroll_outputs {| prefix := lstm_prefix (i + 2);
                        cell_hidden := num_hidden self |} seq_len (inr outputs))
           outs js).
Proof.
  induction js as [|j js IH]; intros outs Houts; simpl; [done|].
  apply IH.
  apply (unroll_steps_hidden {| prefix := lstm_prefix (j + 2);
                                cell_hidden := num_hidden self |}); [done|].
  constructor.
Qed.

Lemma stacked_has_hidden s : stacked_cells s <> [] -> step_hiddens s <> [].
Proof.
  induction s as [| | | | | |d IHd l _]; simpl; try done.
  intros H. specialize (IHd H). by destruct (step_hiddens d).
Qed.

(** X2: every recurrent step of the graph, in every layer and at every time
    step, has the hidden size the instance was configured with. *)
Theorem sym_gen_hidden_size_everywhere self seq_len pred ins lbls :
  _sym_gen self seq_len = inr (pred, ins, lbls) ->
  step_hiddens pred <> [] /\
  Forall (eq (num_hidden self)) (step_hiddens pred).
Proof.
  intros Hgen. pose proof (sym_gen_returns_valid _ _ _ Hgen) as Hv.
  rewrite (sym_gen_unfold self seq_len Hv) in Hgen. revert Hgen.
  unfold stacked_outputs.
  set (embeds := Embedding _ _ _ _).
  set (lstm_1 := {| prefix := "lstm_1_"; cell_hidden := num_hidden self |}).
  assert (Forall (fun o => Forall (eq (num_hidden self)) (step_hiddens o))
            (unroll_outputs lstm_1 seq_len (inl embeds))) as H1.
  { apply (unroll_steps_hidden lstm_1); [|constructor].
    simpl. apply Forall_fmap, Forall_forall. intros t _. constructor. }
  apply (stack_layers_hidden self seq_len (range (lstm_layer self - 1))) in H1.
  assert (Forall (layered ["lstm_1_"]) (unroll_outputs lstm_1 seq_len (inl embeds))) as HL.
  { by apply (unroll_first_layered lstm_1). }
  destruct (stack_layers_layered self seq_len (range (lstm_layer self - 1)) _ _ HL)
    as [HL' _].
  match goal with |- context [index_last ?l] => set (outs := l) in * end.
  unfold index_last.
  destruct (last outs) as [top|] eqn:Hlast; [|done].
  intros [= <- _ _]. simpl. rewrite app_nil_r.
  apply last_Some_elem_of in Hlast.
  rewrite Forall_forall in H1, HL'.
  split; [|by apply H1].
  destruct (HL' _ Hlast) as [Hstack _].
  apply stacked_has_hidden. rewrite Hstack.
  by destruct (reverse _).
Qed.

Lemma sym_gen_hidden_size_everywhere_witness :
  exists pred,
    _sym_gen (small_self 2) 3 = inr (pred, ["data"], ["softmax_label"]) /\
    step_hiddens pred <> [] /\
    Forall (eq (num_hidden (small_self 2))) (step_hiddens pred).
Proof.
  eexists. split; [reflexivity|].
  eapply (sym_gen_hidden_size_everywhere (small_self 2) 3). reflexivity.
Defined.

(** ** The constructor, continued *)

(** X3: a logging set-up that fails with an I/O error does not stop the
    constructor: the instance is built on basic logging at level INFO, with
    one warning on the root logger and nothing yet on its own logger; a
    failure of any other kind escapes the constructor as it is. *)
Theorem init_logging_fallback env a e :
  logging_setup env (arg_logging_root_dir a +:+ class_name +:+ "/")
                (arg_logging_config a) = Some e ->
  (kind e = IOError ->
   exists self,
     __init__ env a = inr self /\
     basic_config (logging self) = Some INFO /\
     level <$> root_records (logging self) = [WARNING] /\
     default_records (logging self) = []) /\
  (kind e <> IOError -> __init__ env a = inl e).
Proof.
  intros He. unfold __init__, setup_logging. rewrite He. split; intros Hk.
  - rewrite bool_decide_eq_true_2 by done. eexists. by repeat split.
  - by rewrite bool_decide_eq_false_2.
Qed.

Lemma init_logging_fallback_witness :
  let env := {| logging_setup := fun _ _ => Some (Raise IOError "No such file");
                isfile := fun _ => false; load_outcome := fun _ => None |} in
  logging_setup env (arg_logging_root_dir default_args +:+ class_name +:+ "/")
                (arg_logging_config default_args)
  = Some (Raise IOError "No such file") /\
  exists self,
    __init__ env default_args = inr self /\
    basic_config (logging self) = Some INFO /\
    level <$> root_records (logging self) = [WARNING] /\
    default_records (logging self) = [].
Proof.
  intros env. split; [reflexivity|].
  exact (proj1 (init_logging_fallback env default_args _ eq_refl) eq_refl).
Defined.

(** ** initialize, continued *)



(** X5: a failure of another kind while the parameters file is read escapes
    [initialize], and by then the instance already holds the new module:
    bound, but without parameters and without an optimizer; nothing is
    logged. (The sizes are those under which the module was built at all.) *)
Theorem initialize_uncaught_load_error env it self e :
  valid_sizes self (it_default_bucket_key it) ->
  isfile env (params_file self) = true ->
  load_outcome env (params_file self) = Some e ->
  kind e ∉ [IOError; ValueError] ->
  initialize env (PyBucketSeqLabelIter it) self
  = (set_model (Some (bound_module self it)) self, inl e) /\
  params (bound_module self it) = Uninitialized /\
  optimizer_of (bound_module self it) = None.
Proof.
  intros Hv Hfile Hload Hkind. split; [|done].
  destruct (sym_gen_layered self _ Hv) as (pred & Hgen & _).
  unfold initialize, isinstance_BucketSeqLabelIter, bind, get, modify, lift,
    new_module, model_call, try_except, load_params, logger.
  cbv beta iota. rewrite Hgen. simpl. rewrite Hfile. simpl. rewrite Hload.
  by rewrite bool_decide_eq_false_2.
Qed.

Lemma initialize_uncaught_load_error_witness :
  let env := {| logging_setup := fun _ _ => None; isfile := fun _ => true;
                load_outcome := fun _ => Some (Raise OtherError "MXNetError") |} in
  valid_sizes (small_self 1) (it_default_bucket_key two_batches) /\
  isfile env (params_file (small_self 1)) = true /\
  load_outcome env (params_file (small_self 1)) = Some (Raise OtherError "MXNetError") /\
  (kind (Raise OtherError "MXNetError") ∉ [IOError; ValueError]) /\
  initialize env (PyBucketSeqLabelIter two_batches) (small_self 1)
  = (set_model (Some (bound_module (small_self 1) two_batches)) (small_self 1),
     inl (Raise OtherError "MXNetError")).
Proof.
  intros env.
  assert (kind (Raise OtherError "MXNetError") ∉ [IOError; ValueError]) as H
    by compute_done.
  split; [exact (small_self_valid 1)|].
  split; [reflexivity|]. split; [reflexivity|]. split; [exact H|].
  exact (proj1 (initialize_uncaught_load_error env two_batches (small_self 1) _
                  (small_self_valid 1) eq_refl eq_refl H)).
Defined.

(** ** train_epochs, continued *)

(** The steps on a list of batches, with all they leave on the instance. *)
Lemma steps_bound_records mu bs : forall self m,
  model self = Some m ->
  Forall (fun b => mu b = None) bs ->
  exists self' m',
    for_each bs (step mu) self = (self', inr tt) /\
    model self' = Some m' /\
    calls m' = calls m ++ mjoin (step_calls <$> bs) /\
    metric self' = metric self /\
    default_records (logging self')
    = default_records (logging self)
      ++ replicate (length bs) (Log DEBUG "train step cross-entropy: %f").
Proof.
  induction bs as [|b bs IH]; intros self m Hm Hmu; simpl.
  { exists self, m. by rewrite !app_nil_r. }
  apply Forall_cons in Hmu as [Hb Hmu].
  unfold bind. rewrite (step_bound mu b self m Hm Hb).
  match goal with
  | |- context [for_each bs (step mu) ?s] =>
      destruct (IH s _ eq_refl Hmu)
        as (self' & m' & Hrun & Hm' & Hcalls & Hmetric & Hlog)
  end.
  exists self', m'. split; [exact Hrun|]. split; [exact Hm'|].
  split; [|split; [exact Hmetric|]].
  - rewrite Hcalls. simpl. by rewrite <- !app_assoc.
  - rewrite Hlog. simpl. by rewrite <- app_assoc.
Qed.

Lemma infos_debug k msg : infos (replicate k (Log DEBUG msg)) = [].
Proof. induction k as [|k IH]; [done|]. simpl. unfold infos in *. by rewrite filter_cons_False. Qed.

(** One epoch with an evaluation iterator of its own and a metric: reset,
    the steps, then the evaluation iterator reset and scored, then the
    record. *)
Lemma epoch_with_eval mu e st m mt ev :
  model (self_of st) = Some m ->
  metric (self_of st) = Some mt ->
  eval_data st = Some (OtherIterator ev) ->
  Forall (fun b => mu b = None) (schedule (train_data st) (resets (train_data st))) ->
  exists st' m' evs ev',
    epoch mu e st = (st', inr tt) /\
    model (self_of st') = Some m' /\
    calls m'
    = calls m
      ++ epoch_calls mt (schedule (train_data st) (resets (train_data st))) evs /\
    metric (self_of st') = Some mt /\
    train_data st' = exhausted (reset (train_data st)) /\
    eval_data st' = Some (OtherIterator ev') /\
    default_records (logging (self_of st'))
    = default_records (logging (self_of st))
      ++ replicate (length (schedule (train_data st) (resets (train_data st))))
           (Log DEBUG "train step cross-entropy: %f")
      ++ [eval_record (metric_name mt) e].
Proof.
  intros Hm Hmetric Hev Hmu.
  destruct (steps_bound_records mu (schedule (train_data st) (resets (train_data st)))
              (self_of st) m Hm Hmu)
    as (s1 & m1 & Hrun & Hm1 & Hcalls & Hmetric1 & Hlog).
  pose proof (for_batches_steps mu _ (set_train_data (reset (train_data st)) st) s1
                eq_refl Hrun) as Hb.
  simpl in Hb. rewrite Hmetric in Hmetric1.
  eexists _, _, _, _. split.
  { unfold epoch, bind, modify, get. simpl.
    rewrite Hb. simpl. rewrite Hev. simpl.
    unfold reset_eval, score, eval_iterator, set_eval_iterator. simpl.
    rewrite Hm1, Hmetric1. simpl.
    unfold on_self, logger, modify. simpl. rewrite Hmetric1. reflexivity. }
  split; [reflexivity|]. split.
  { simpl. unfold epoch_calls. rewrite Hcalls, <- app_assoc. reflexivity. }
  split; [done|]. split; [done|]. split; [reflexivity|].
  simpl. by rewrite Hlog, <- app_assoc.
Qed.

Lemma epochs_with_eval mu mt es : forall st m ev,
  model (self_of st) = Some m ->
  metric (self_of st) = Some mt ->
  eval_data st = Some (OtherIterator ev) ->
  (forall k, Forall (fun b => mu b = None) (schedule (train_data st) k)) ->
  exists st' m' evs new,
    for_each es (epoch mu) st = (st', inr tt) /\
    model (self_of st') = Some m' /\
    length evs = length es /\
    calls m'
    = calls m
      ++ mjoin (zip_with (epoch_calls mt)
                  (schedule (train_data st)
                     <$> seq (resets (train_data st)) (length es))
                  evs) /\
    default_records (logging (self_of st'))
    = default_records (logging (self_of st)) ++ new /\
    infos new = eval_record (metric_name mt) <$> es.
Proof.
  induction es as [|e es IH]; intros st m ev Hm Hmetric Hev Hmu.
  { exists st, m, [], []. simpl. by rewrite !app_nil_r. }
  destruct (epoch_with_eval mu e st m mt ev Hm Hmetric Hev (Hmu _))
    as (st1 & m1 & evs1 & ev1 & Hrun1 & Hm1 & Hcalls1 & Hmetric1 & Htrain1 & Hev1 & Hlog1).
  assert (forall k, Forall (fun b => mu b = None) (schedule (train_data st1) k))
    as Hmu1 by (by rewrite Htrain1).
  destruct (IH st1 m1 ev1 Hm1 Hmetric1 Hev1 Hmu1)
    as (st' & m' & evs & new & Hrun & Hm' & Hlen & Hcalls & Hlog & Hinfos).
  exists st', m', (evs1 :: evs),
    (replicate (length (schedule (train_data st) (resets (train_data st))))
       (Log DEBUG "train step cross-entropy: %f")
     ++ [eval_record (metric_name mt) e] ++ new).
  split; [simpl; unfold bind; by rewrite Hrun1|].
  split; [exact Hm'|]. split; [simpl; by rewrite Hlen|].
  split; [|split].
  - rewrite Hcalls, Hcalls1, Htrain1. simpl. by rewrite <- !app_assoc.
  - rewrite Hlog, Hlog1. by rewrite <- !app_assoc.
  - unfold infos in *. rewrite filter_app. fold (infos (replicate
      (length (schedule (train_data st) (resets (train_data st))))
      (Log DEBUG "train step cross-entropy: %f"))).
    rewrite infos_debug. simpl. rewrite filter_cons_True by done.
    by rewrite Hinfos.
Qed.



Lemma range_pos n : 0 < n -> range n = 0 :: seqZ 1 (n - 1).
Proof.
  intros Hn. unfold range. rewrite seqZ_cons by done.
  by replace (Z.pred n) with (n - 1) by lia.
Qed.



(** X8: [train_epochs] on an instance that was never initialized resets the
    iterator, takes its first batch and raises an attribute error on the
    forward pass; the instance is left as it was. With no epoch to run it
    returns at once and touches nothing, the iterator included. *)
Theorem train_epochs_before_initialize metric_update self train eval n :
  model self = None ->
  (forall b bs,
   0 < n ->
   schedule train (resets train) = b :: bs ->
   call_train_epochs metric_update self train eval n
   = ({| self_of := self; train_data := set_pending bs (reset train);
         eval_data := eval |},
      inl (no_attribute "forward"))) /\
  (n <= 0 ->
   call_train_epochs metric_update self train eval n
   = ({| self_of := self; train_data := train; eval_data := eval |}, inr tt)).
Proof.
  intros Hm. split.
  - intros b bs Hn Hsched.
    unfold call_train_epochs, train_epochs. rewrite (range_pos n Hn). simpl.
    unfold bind at 1. unfold epoch, bind, modify, get. simpl.
    rewrite Hsched. simpl. unfold bind, modify, on_self, step, bind, model_call.
    simpl. by rewrite Hm.
  - intros Hn. unfold call_train_epochs, train_epochs, range.
    by rewrite seqZ_nil by lia.
Qed.

Lemma train_epochs_before_initialize_witness :
  model (small_self 1) = None /\
  0 < 2 /\
  schedule two_batches (resets two_batches)
  = {| data := [[1; 2]; [3; 4]]; label := [[0; 1]]; bucket_key := 2 |}
    :: [ {| data := [[5; 6; 7]]; label := [[2]]; bucket_key := 3 |} ] /\
  call_train_epochs (cross_entropy_update 2) (small_self 1) two_batches None 2
  = ({| self_of := small_self 1;
        train_data :=
          set_pending [ {| data := [[5; 6; 7]]; label := [[2]]; bucket_key := 3 |} ]
                      (reset two_batches);
        eval_data := None |},
     inl (no_attribute "forward")).
Proof.
  split; [reflexivity|]. split; [lia|]. split; [reflexivity|].
  apply (proj1 (train_epochs_before_initialize (cross_entropy_update 2)
                  (small_self 1) two_batches None 2 eq_refl)
               {| data := [[1; 2]; [3; 4]]; label := [[0; 1]]; bucket_key := 2 |});
    [lia|reflexivity].
Defined.

(** Without evaluation data an epoch does not look at its number, and it
    leaves the evaluation data absent however it ends. *)
Lemma for_batches_eval_data bs body_self : forall st,
  eval_data (for_batches bs (fun b => on_self (body_self b)) st).1 = eval_data st.
Proof.
  induction bs as [|b bs IH]; intros st; simpl; [done|].
  unfold bind, modify, on_self. simpl.
  destruct (body_self b (self_of st)) as [s1 [e|[]]]; [done|].
  by rewrite IH.
Qed.

Lemma epoch_no_eval mu e e' st :
  eval_data st = None ->
  epoch mu e st = epoch mu e' st /\ eval_data (epoch mu e st).1 = None.
Proof.
  intros Hev. unfold epoch, bind, modify, get. simpl.
  pose proof (for_batches_eval_data
                (schedule (train_data st) (resets (train_data st))) (step mu)
                (set_train_data (reset (train_data st)) st)) as Hkeep.
  simpl in Hkeep. rewrite Hev in Hkeep.
  destruct (for_batches _ _ _) as [st1 [err|[]]]; simpl in *; [done|].
  by rewrite Hkeep.
Qed.

Lemma epochs_no_eval mu es : forall es' st,
  length es = length es' ->
  eval_data st = None ->
  for_each es (epoch mu) st = for_each es' (epoch mu) st /\
  eval_data (for_each es (epoch mu) st).1 = None.
Proof.
  induction es as [|e es IH]; intros [|e' es'] st Hlen Hev; simplify_eq/=; [done|].
  destruct (epoch_no_eval mu e e' st Hev) as [Heq Hkeep].
  unfold bind. rewrite <- Heq.
  destruct (epoch mu e st) as [st1 [err|[]]]; simpl in *; [done|].
  by apply IH.
Qed.



(** ** predict, continued *)

Lemma forwarded_snoc bs b m :
  forwarded (bs ++ [b]) m = record_call (Forward b (Some false)) (forwarded bs m).
Proof. unfold forwarded. by rewrite foldl_app. Qed.

Lemma forwarded_fields bs : forall m,
  calls (forwarded bs m) = calls m ++ ((fun b => Forward b (Some false)) <$> bs) /\
  params (forwarded bs m) = params m /\
  optimizer_of (forwarded bs m) = optimizer_of m /\
  binded (forwarded bs m) = binded m.
Proof.
  induction bs as [|b bs IH]; intros m; simpl.
  { by rewrite app_nil_r. }
  destruct (IH (record_call (Forward b (Some false)) m)) as (Hc & Hp & Ho & Hb).
  unfold forwarded in *. simpl.
  rewrite Hc, Hp, Ho, Hb. simpl. by rewrite <- app_assoc.
Qed.

Section PredictRun.
Context {R : Type} (zero : R) (gtb : R -> R -> bool).
Variable net : DataBatch -> list (list R).
Variable new_BucketSeqLabelIter :
  list (list Z) -> list Z -> Z -> Exn + BucketSeqLabelIter.

Lemma scatter_all_snoc rows row (arrays : list Z * list (list R)) :
  scatter_all gtb (rows ++ [row]) arrays = put gtb (scatter_all gtb rows arrays) row.
Proof. unfold scatter_all. by rewrite foldl_app. Qed.

Lemma scatter_all_app rows rows' (arrays : list Z * list (list R)) :
  scatter_all gtb (rows ++ rows') arrays
  = scatter_all gtb rows' (scatter_all gtb rows arrays).
Proof. unfold scatter_all. by rewrite foldl_app. Qed.

Lemma length_scatter_all rows : forall arrays : list Z * list (list R),
  length (scatter_all gtb rows arrays).1 = length arrays.1 /\
  length (scatter_all gtb rows arrays).2 = length arrays.2.
Proof.
  induction rows as [|row rows IH]; intros arrays; [done|].
  unfold scatter_all in *. simpl.
  destruct (IH (put gtb arrays row)) as [H1 H2].
  rewrite H1, H2. simpl. by rewrite !length_insert.
Qed.

(** Lines 217-219 on a row that fits and an identifier within the arrays. *)
Lemma scatter_put (n : nat) ncols labels scores logits idx (s : H3RNNSeqClassifier) :
  length labels = n -> length scores = n ->
  0 <= idx < Z.of_nat n ->
  len logits = ncols -> 0 < ncols ->
  scatter gtb ncols (labels, scores) (logits, idx) s
  = (s, inr (put gtb (labels, scores) (logits, idx))).
Proof.
  intros Hl1 Hl2 Hidx Hlen Hn.
  destruct logits as [|x logits]; [unfold len in Hlen; simpl in Hlen; lia|].
  unfold scatter, bind, lift, setitem, broadcast_row, np_argmax, put.
  rewrite (norm_index_in_range (len labels) idx) by (unfold len; lia).
  rewrite (proj2 (Z.eqb_eq _ ncols) Hlen).
  by rewrite (norm_index_in_range (len scores) idx) by (unfold len; lia).
Qed.

Lemma predict_batch_run (n : nat) ncols arrays b self m :
  length arrays.1 = n -> length arrays.2 = n ->
  model self = Some m ->
  label b <> [] ->
  Forall (fun idx => 0 <= idx < Z.of_nat n) (batch_ids b) ->
  Forall (fun row => len row = ncols) (net b) ->
  0 < ncols ->
  exists self',
    predict_batch gtb net ncols arrays b self
    = (self', inr (scatter_all gtb (batch_rows net b) arrays)) /\
    model self' = Some (record_call (Forward b (Some false)) m) /\
    set_model None self' = set_model None self.
Proof.
  intros Hl1 Hl2 Hm Hlabel Hids Hfit Hn.
  unfold predict_batch, bind, model_call, lift. rewrite Hm. simpl.
  unfold batch_rows, batch_ids in *.
  destruct (label b) as [|ids more]; [done|]. simpl in *.
  set (s1 := set_model _ _).
  destruct (for_fold_ind
              (fun sofar acc s => s = s1 /\ acc = scatter_all gtb sofar arrays)
              (zip (net b) ids) (scatter gtb ncols)) with (acc := arrays) (s := s1)
    as (arrays' & s' & Hrun & -> & ->).
  - intros sofar [logits idx] rest acc s Hzip [-> ->].
    assert ((logits, idx) ∈ zip (net b) ids) as Hin.
    { rewrite Hzip. apply elem_of_app. right. by left. }
    destruct (length_scatter_all sofar arrays) as [Hs1 Hs2].
    destruct (scatter_all gtb sofar arrays) as [labels scores] eqn:Hsofar.
    simpl in *.
    exists (put gtb (labels, scores) (logits, idx)), s1. split.
    + apply (scatter_put n); [lia|lia| | |done].
      * rewrite Forall_forall in Hids. apply Hids. by eapply elem_of_zip_r.
      * rewrite Forall_forall in Hfit. apply Hfit. by eapply elem_of_zip_l.
    + split; [done|]. by rewrite scatter_all_snoc, Hsofar.
  - done.
  - exists s1. done.
Qed.

(** [predict] as a whole: the zero arrays with every row the batches bring
    written at the position its identifier names, in the order they come;
    on the instance, one forward pass in inference mode per batch and nothing
    else. *)
Lemma predict_run self m test_data batch_size it :
  model self = Some m ->
  0 < num_classes self ->
  new_BucketSeqLabelIter test_data (range (len test_data)) batch_size = inr it ->
  carries_ids (len test_data) it ->
  rows_fit net (num_classes self) it ->
  exists self',
    predict zero gtb net new_BucketSeqLabelIter test_data batch_size self
    = (self',
       inr (scatter_all gtb (yielded_rows net it)
              (replicate (length test_data) 0,
               replicate (length test_data)
                 (replicate (Z.to_nat (num_classes self)) zero)))) /\
    model self' = Some (forwarded (pending it) m) /\
    set_model None self' = set_model None self.
Proof.
  intros Hm Hn Hnew [Hlabel Hids] Hfit.
  unfold predict, bind, get, lift, np_zeros2, np_zeros.
  rewrite (proj2 (Z.ltb_ge (len test_data) 0)) by (unfold len; lia).
  rewrite (proj2 (Z.ltb_ge (num_classes self) 0)) by lia.
  rewrite Hnew. unfold len at 1 2. rewrite !Nat2Z.id.
  unfold yielded_rows, yielded_ids, rows_fit, len in *.
  set (zeros := (replicate (length test_data) 0,
                 replicate (length test_data)
                   (replicate (Z.to_nat (num_classes self)) zero))).
  destruct (for_fold_ind
              (fun sofar acc s =>
                 acc = scatter_all gtb (mjoin (batch_rows net <$> sofar)) zeros /\
                 model s = Some (forwarded sofar m) /\
                 set_model None s = set_model None self)
              (pending it) (predict_batch gtb net (num_classes self)))
    with (acc := zeros) (s := self)
    as (arrays & self' & Hrun & -> & Hm' & Hsame).
  - intros sofar b rest acc s Hpend (-> & Hms & Hs).
    assert (b ∈ pending it) as Hb.
    { rewrite Hpend. apply elem_of_app. right. by left. }
    destruct (length_scatter_all (mjoin (batch_rows net <$> sofar)) zeros)
      as [Hl1 Hl2].
    unfold zeros in Hl1 at 2. unfold zeros in Hl2 at 2. simpl in Hl1, Hl2.
    rewrite length_replicate in Hl1. rewrite length_replicate in Hl2.
    destruct (predict_batch_run (length test_data) (num_classes self)
                (scatter_all gtb (mjoin (batch_rows net <$> sofar)) zeros)
                b s _ Hl1 Hl2 Hms) as (s' & Hbatch & Hs' & Hsame').
    + rewrite Forall_forall in Hlabel. by apply Hlabel.
    + rewrite Forall_forall in Hids |- *. intros idx Hidx. apply Hids.
      apply list_elem_of_join. exists (batch_ids b). split; [done|].
      by apply list_elem_of_fmap_2.
    + rewrite Forall_forall in Hfit. by apply Hfit.
    + done.
    + eexists _, s'. split; [exact Hbatch|]. split; [|split].
      * rewrite fmap_app, join_app. simpl. by rewrite app_nil_r, scatter_all_app.
      * by rewrite forwarded_snoc.
      * by rewrite Hsame'.
  - done.
  - by exists self'.
Qed.


Lemma scatter_all_keep rows : forall (arrays : list Z * list (list R)) (i : nat),
  (forall row, row ∈ rows -> Z.to_nat row.2 <> i) ->
  (scatter_all gtb rows arrays).1 !! i = arrays.1 !! i /\
  (scatter_all gtb rows arrays).2 !! i = arrays.2 !! i.
Proof.
  induction rows as [|row rows IH]; intros arrays i Hne; [done|].
  unfold scatter_all in *. simpl.
  destruct (IH (put gtb arrays row) i) as [H1 H2].
  { intros r Hr. apply Hne. by right. }
  rewrite H1, H2. unfold put. simpl.
  assert (Z.to_nat row.2 <> i) by (apply Hne; by left).
  by rewrite !list_lookup_insert_ne.
Qed.


Lemma argmax_from_bound l : forall best best_i i,
  0 <= best_i < i ->
  0 <= argmax_from gtb best best_i i l < i + len l.
Proof.
  unfold len. induction l as [|x l IH]; intros best best_i i Hi; simpl; [lia|].
  destruct (gtb x best).
  - specialize (IH x i (i + 1)). lia.
  - specialize (IH best best_i (i + 1)). lia.
Qed.

Lemma scatter_all_classes ncols rows : forall arrays : list Z * list (list R),
  0 < ncols ->
  Forall (fun row => len row.1 = ncols) rows ->
  Forall (fun l => 0 <= l < ncols) arrays.1 ->
  Forall (fun row => len row = ncols) arrays.2 ->
  Forall (fun l => 0 <= l < ncols) (scatter_all gtb rows arrays).1 /\
  Forall (fun row => len row = ncols) (scatter_all gtb rows arrays).2.
Proof.
  induction rows as [|[logits idx] rows IH]; intros arrays Hn Hrows H1 H2; [done|].
  apply Forall_cons in Hrows as [Hlen Hrest]. simpl in Hlen.
  unfold scatter_all in *. simpl.
  apply IH; [done|done| |]; unfold put; simpl.
  - apply Forall_insert; [done|].
    destruct logits as [|x logits]; simpl.
    + unfold len in Hlen. simpl in Hlen. lia.
    + pose proof (argmax_from_bound logits x 0 1). unfold len in *.
      simpl in Hlen. lia.
  - by apply Forall_insert.
Qed.


(** X13: when the iterator yields no batch, [predict] returns label 0 and a
    row of zeros for every sample and does not touch the module, so it does
    so on an instance that was never initialized as well; when it yields a
    batch, an instance that was never initialized raises an attribute error
    on the first forward pass. *)
Theorem predict_without_batches self test_data batch_size it :
  0 <= num_classes self ->
  new_BucketSeqLabelIter test_data (range (len test_data)) batch_size = inr it ->
  (pending it = [] ->
   predict zero gtb net new_BucketSeqLabelIter test_data batch_size self
   = (self, inr (replicate (length test_data) 0,
                 replicate (length test_data)
                   (replicate (Z.to_nat (num_classes self)) zero)))) /\
  (pending it <> [] -> model self = None ->
   predict zero gtb net new_BucketSeqLabelIter test_data batch_size self
   = (self, inl (no_attribute "forward"))).
Proof.
  intros Hn Hnew.
  unfold predict, bind, get, lift, np_zeros2, np_zeros.
  rewrite (proj2 (Z.ltb_ge (len test_data) 0)) by (unfold len; lia).
  rewrite (proj2 (Z.ltb_ge (num_classes self) 0)) by lia.
  rewrite Hnew. unfold len at 1 2 3 4. rewrite !Nat2Z.id.
  split.
  - by intros ->.
  - intros Hne Hm. destruct (pending it) as [|b bs]; [done|]. simpl.
    unfold bind, predict_batch, bind, model_call. by rewrite Hm.
Qed.

End PredictRun.




Lemma predict_without_batches_witness :
  0 <= num_classes (small_self 1) /\
  last_first_iter [[]] (range (len [[] : list Z])) 32 = inr (iter_of []) /\
  predict 0 Z.gtb toy_net last_first_iter [[]] 32 (small_self 1)
  = (small_self 1, inr ([0], [[0; 0]])).
Proof.
  split; [simpl; lia|]. split; [reflexivity|].
  apply (proj1 (predict_without_batches 0 Z.gtb toy_net last_first_iter
                  (small_self 1) [[]] 32 (iter_of []) ltac:(simpl; lia) eq_refl)).
  reflexivity.
Defined.

(** ** save, continued *)

Lemma append_eq_self s t : s +:+ t = s -> t = "".
Proof.
  induction s as [|a s IH]; intros H; [done|].
  injection H as H. by apply IH.
Qed.

Lemma epoch_suffix_inj path (z1 z2 : Z) :
  path +:+ "-" +:+ str z1 = path +:+ "-" +:+ str z2 -> z1 = z2.
Proof.
  intros H. apply (inj (String.app path)) in H.
  apply (inj (String.app "-")) in H.
  by apply (inj pretty) in H.
Qed.



(** ** The methods in sequence *)

(** X15: [step] and [save] on an instance that was never initialized raise
    an attribute error before anything else happens: the instance, its log
    included, is left as it was. *)
Theorem step_save_before_initialize metric_update self b path epoch :
  model self = None ->
  step metric_update b self = (self, inl (no_attribute "forward")) /\
  save path epoch self = (self, inl (no_attribute "save_params")).
Proof.
  intros Hm. unfold step, save, bind, model_call. by rewrite Hm.
Qed.

Lemma step_save_before_initialize_witness :
  model (small_self 1) = None /\
  step (cross_entropy_update 2)
       {| data := [[1]]; label := [[0]]; bucket_key := 1 |} (small_self 1)
  = (small_self 1, inl (no_attribute "forward")) /\
  save "lstm" (Some 3) (small_self 1)
  = (small_self 1, inl (no_attribute "save_params")).
Proof.
  split; [reflexivity|].
  apply (step_save_before_initialize (cross_entropy_update 2) (small_self 1)).
  reflexivity.
Defined.

(** [initialize] returns when the sizes are ones the operators accept and
    the parameters end initialized: there is no file, or the file is read.
    The module it leaves has served no call yet. *)
Lemma initialize_model_bound env it self :
  valid_sizes self (it_default_bucket_key it) ->
  isfile env (params_file self) = false \/ load_outcome env (params_file self) = None ->
  exists self' m',
    initialize env (PyBucketSeqLabelIter it) self = (self', inr tt) /\
    model self' = Some m' /\ calls m' = [].
Proof.
  intros Hv Hparams.
  destruct (isfile env (params_file self)) eqn:Hfile.
  - destruct Hparams as [|Hload]; [done|].
    rewrite (initialize_loaded env it self Hv Hfile Hload).
    eexists _, _. split; [reflexivity|]. split; reflexivity.
  - rewrite (initialize_no_file env it self Hv Hfile).
    eexists _, _. split; [reflexivity|]. split; reflexivity.
Qed.


